(** * Password generator: alphabet construction, secure generation and
      strength estimation

    A shallow embedding of the class [PasswordGenerator] of
    [password_generator.py] (its two static methods [generate] and
    [calculate_strength]) together with the properties its specification
    states about them.

    Modelling choices.
    - A Python [str] is a list of Unicode code points ([N]); the predicates
      [str.isupper], [str.islower] and [str.isdigit] are those of the Unicode
      character database (version 14.0.0, the one of CPython 3.11), given
      here as tables of runs of code points.
    - [secrets.choice] draws from the operating system's randomness source.
      The source is an interface ([SystemRandom]) whose single operation may
      raise; [generate] runs in a state-and-exception monad over it.  In
      that monad an exception carries no state of the source; the module
      [Traced] runs the same code with the state kept when a draw raises,
      to tell what happens after a failure.
    - [math.log2] and the product with the length are read as operations on
      real numbers.  Every entropy the code can compute other than
      [12 * log2 32 = 60] stays more than 0.15 bits away from each of the
      thresholds 28, 36, 60 and 128, so binary64 rounding never changes the
      side of a threshold a comparison falls on.  An executable version that
      compares integer powers is proved equal to the real-number one. *)

From Stdlib Require Import String Ascii List ZArith NArith Bool Lia.
From Stdlib Require Import Reals Lra Permutation.
Import ListNotations.

Set Implicit Arguments.

(** ** Python strings *)

Definition char := N.
Definition str := list char.

(** The code points of an ASCII literal. *)
Definition lit (s : string) : str := map N_of_ascii (list_ascii_of_string s).

(** [any(iterable)] on a list of booleans. *)
Definition any (l : list bool) : bool := existsb (fun b => b) l.

(** [c in s] for a one-character string [c]. *)
Definition contains (s : str) (c : char) : bool := existsb (N.eqb c) s.

(** ** The Unicode predicates of [str] *)

Module Unicode.

(** A run [(lo, hi, step)] holds the code points [lo], [lo + step], ...
    up to [hi]. *)
Definition run := (N * N * N)%type.

Definition in_run (c : char) (r : run) : bool :=
  let '(lo, hi, step) := r in
  ((lo <=? c) && (c <=? hi) && ((c - lo) mod step =? 0))%N.

Definition in_runs (t : list run) (c : char) : bool := existsb (in_run c) t.

(** Code points with the Unicode property Uppercase: those on which
    [str.isupper] holds for a one-character string. *)
Definition uppercase_runs : list run :=
  [(0x41, 0x5A, 1); (0xC0, 0xD6, 1); (0xD8, 0xDE, 1); (0x100, 0x136, 2);
   (0x139, 0x147, 2); (0x14A, 0x178, 2); (0x179, 0x17D, 2); (0x181, 0x182, 1);
   (0x184, 0x184, 1); (0x186, 0x187, 1); (0x189, 0x18B, 1); (0x18E, 0x191, 1);
   (0x193, 0x194, 1); (0x196, 0x198, 1); (0x19C, 0x19D, 1); (0x19F, 0x1A0, 1);
   (0x1A2, 0x1A6, 2); (0x1A7, 0x1A7, 1); (0x1A9, 0x1A9, 1); (0x1AC, 0x1AC, 1);
   (0x1AE, 0x1AF, 1); (0x1B1, 0x1B3, 1); (0x1B5, 0x1B5, 1); (0x1B7, 0x1B8, 1);
   (0x1BC, 0x1BC, 1); (0x1C4, 0x1C4, 1); (0x1C7, 0x1C7, 1); (0x1CA, 0x1CA, 1);
   (0x1CD, 0x1DB, 2); (0x1DE, 0x1EE, 2); (0x1F1, 0x1F1, 1); (0x1F4, 0x1F4, 1);
   (0x1F6, 0x1F8, 1); (0x1FA, 0x232, 2); (0x23A, 0x23B, 1); (0x23D, 0x23E, 1);
   (0x241, 0x241, 1); (0x243, 0x246, 1); (0x248, 0x24E, 2); (0x370, 0x370, 1);
   (0x372, 0x372, 1); (0x376, 0x376, 1); (0x37F, 0x37F, 1); (0x386, 0x386, 1);
   (0x388, 0x38A, 1); (0x38C, 0x38C, 1); (0x38E, 0x38F, 1); (0x391, 0x3A1, 1);
   (0x3A3, 0x3AB, 1); (0x3CF, 0x3CF, 1); (0x3D2, 0x3D4, 1); (0x3D8, 0x3EE, 2);
   (0x3F4, 0x3F4, 1); (0x3F7, 0x3F7, 1); (0x3F9, 0x3FA, 1); (0x3FD, 0x42F, 1);
   (0x460, 0x480, 2); (0x48A, 0x4C0, 2); (0x4C1, 0x4CD, 2); (0x4D0, 0x52E, 2);
   (0x531, 0x556, 1); (0x10A0, 0x10C5, 1); (0x10C7, 0x10C7, 1);
   (0x10CD, 0x10CD, 1); (0x13A0, 0x13F5, 1); (0x1C90, 0x1CBA, 1);
   (0x1CBD, 0x1CBF, 1); (0x1E00, 0x1E94, 2); (0x1E9E, 0x1EFE, 2);
   (0x1F08, 0x1F0F, 1); (0x1F18, 0x1F1D, 1); (0x1F28, 0x1F2F, 1);
   (0x1F38, 0x1F3F, 1); (0x1F48, 0x1F4D, 1); (0x1F59, 0x1F5F, 2);
   (0x1F68, 0x1F6F, 1); (0x1FB8, 0x1FBB, 1); (0x1FC8, 0x1FCB, 1);
   (0x1FD8, 0x1FDB, 1); (0x1FE8, 0x1FEC, 1); (0x1FF8, 0x1FFB, 1);
   (0x2102, 0x2102, 1); (0x2107, 0x2107, 1); (0x210B, 0x210D, 1);
   (0x2110, 0x2112, 1); (0x2115, 0x2115, 1); (0x2119, 0x211D, 1);
   (0x2124, 0x212A, 2); (0x212B, 0x212D, 1); (0x2130, 0x2133, 1);
   (0x213E, 0x213F, 1); (0x2145, 0x2145, 1); (0x2160, 0x216F, 1);
   (0x2183, 0x2183, 1); (0x24B6, 0x24CF, 1); (0x2C00, 0x2C2F, 1);
   (0x2C60, 0x2C60, 1); (0x2C62, 0x2C64, 1); (0x2C67, 0x2C6D, 2);
   (0x2C6E, 0x2C70, 1); (0x2C72, 0x2C72, 1); (0x2C75, 0x2C75, 1);
   (0x2C7E, 0x2C80, 1); (0x2C82, 0x2CE2, 2); (0x2CEB, 0x2CEB, 1);
   (0x2CED, 0x2CED, 1); (0x2CF2, 0x2CF2, 1); (0xA640, 0xA66C, 2);
   (0xA680, 0xA69A, 2); (0xA722, 0xA72E, 2); (0xA732, 0xA76E, 2);
   (0xA779, 0xA77D, 2); (0xA77E, 0xA786, 2); (0xA78B, 0xA78B, 1);
   (0xA78D, 0xA78D, 1); (0xA790, 0xA790, 1); (0xA792, 0xA792, 1);
   (0xA796, 0xA7AA, 2); (0xA7AB, 0xA7AE, 1); (0xA7B0, 0xA7B4, 1);
   (0xA7B6, 0xA7C4, 2); (0xA7C5, 0xA7C7, 1); (0xA7C9, 0xA7C9, 1);
   (0xA7D0, 0xA7D0, 1); (0xA7D6, 0xA7D6, 1); (0xA7D8, 0xA7D8, 1);
   (0xA7F5, 0xA7F5, 1); (0xFF21, 0xFF3A, 1); (0x10400, 0x10427, 1);
   (0x104B0, 0x104D3, 1); (0x10570, 0x1057A, 1); (0x1057C, 0x1058A, 1);
   (0x1058C, 0x10592, 1); (0x10594, 0x10595, 1); (0x10C80, 0x10CB2, 1);
   (0x118A0, 0x118BF, 1); (0x16E40, 0x16E5F, 1); (0x1D400, 0x1D419, 1);
   (0x1D434, 0x1D44D, 1); (0x1D468, 0x1D481, 1); (0x1D49C, 0x1D49C, 1);
   (0x1D49E, 0x1D49F, 1); (0x1D4A2, 0x1D4A2, 1); (0x1D4A5, 0x1D4A6, 1);
   (0x1D4A9, 0x1D4AC, 1); (0x1D4AE, 0x1D4B5, 1); (0x1D4D0, 0x1D4E9, 1);
   (0x1D504, 0x1D505, 1); (0x1D507, 0x1D50A, 1); (0x1D50D, 0x1D514, 1);
   (0x1D516, 0x1D51C, 1); (0x1D538, 0x1D539, 1); (0x1D53B, 0x1D53E, 1);
   (0x1D540, 0x1D544, 1); (0x1D546, 0x1D546, 1); (0x1D54A, 0x1D550, 1);
   (0x1D56C, 0x1D585, 1); (0x1D5A0, 0x1D5B9, 1); (0x1D5D4, 0x1D5ED, 1);
   (0x1D608, 0x1D621, 1); (0x1D63C, 0x1D655, 1); (0x1D670, 0x1D689, 1);
   (0x1D6A8, 0x1D6C0, 1); (0x1D6E2, 0x1D6FA, 1); (0x1D71C, 0x1D734, 1);
   (0x1D756, 0x1D76E, 1); (0x1D790, 0x1D7A8, 1); (0x1D7CA, 0x1D7CA, 1);
   (0x1E900, 0x1E921, 1); (0x1F130, 0x1F149, 1); (0x1F150, 0x1F169, 1);
   (0x1F170, 0x1F189, 1)]%N.

(** Code points with the Unicode property Lowercase: those on which
    [str.islower] holds for a one-character string. *)
Definition lowercase_runs : list run :=
  [(0x61, 0x7A, 1); (0xAA, 0xAA, 1); (0xB5, 0xB5, 1); (0xBA, 0xBA, 1);
   (0xDF, 0xF6, 1); (0xF8, 0xFF, 1); (0x101, 0x137, 2); (0x138, 0x148, 2);
   (0x149, 0x177, 2); (0x17A, 0x17E, 2); (0x17F, 0x180, 1); (0x183, 0x183, 1);
   (0x185, 0x185, 1); (0x188, 0x188, 1); (0x18C, 0x18D, 1); (0x192, 0x192, 1);
   (0x195, 0x195, 1); (0x199, 0x19B, 1); (0x19E, 0x19E, 1); (0x1A1, 0x1A5, 2);
   (0x1A8, 0x1A8, 1); (0x1AA, 0x1AB, 1); (0x1AD, 0x1AD, 1); (0x1B0, 0x1B0, 1);
   (0x1B4, 0x1B4, 1); (0x1B6, 0x1B6, 1); (0x1B9, 0x1BA, 1); (0x1BD, 0x1BF, 1);
   (0x1C6, 0x1C6, 1); (0x1C9, 0x1C9, 1); (0x1CC, 0x1DC, 2); (0x1DD, 0x1EF, 2);
   (0x1F0, 0x1F0, 1); (0x1F3, 0x1F3, 1); (0x1F5, 0x1F5, 1); (0x1F9, 0x233, 2);
   (0x234, 0x239, 1); (0x23C, 0x23C, 1); (0x23F, 0x240, 1); (0x242, 0x242, 1);
   (0x247, 0x24F, 2); (0x250, 0x293, 1); (0x295, 0x2B8, 1); (0x2C0, 0x2C1, 1);
   (0x2E0, 0x2E4, 1); (0x345, 0x345, 1); (0x371, 0x371, 1); (0x373, 0x373, 1);
   (0x377, 0x377, 1); (0x37A, 0x37D, 1); (0x390, 0x390, 1); (0x3AC, 0x3CE, 1);
   (0x3D0, 0x3D1, 1); (0x3D5, 0x3D7, 1); (0x3D9, 0x3EF, 2); (0x3F0, 0x3F3, 1);
   (0x3F5, 0x3F5, 1); (0x3F8, 0x3F8, 1); (0x3FB, 0x3FC, 1); (0x430, 0x45F, 1);
   (0x461, 0x481, 2); (0x48B, 0x4BF, 2); (0x4C2, 0x4CE, 2); (0x4CF, 0x52F, 2);
   (0x560, 0x588, 1); (0x10D0, 0x10FA, 1); (0x10FD, 0x10FF, 1);
   (0x13F8, 0x13FD, 1); (0x1C80, 0x1C88, 1); (0x1D00, 0x1DBF, 1);
   (0x1E01, 0x1E95, 2); (0x1E96, 0x1E9D, 1); (0x1E9F, 0x1EFF, 2);
   (0x1F00, 0x1F07, 1); (0x1F10, 0x1F15, 1); (0x1F20, 0x1F27, 1);
   (0x1F30, 0x1F37, 1); (0x1F40, 0x1F45, 1); (0x1F50, 0x1F57, 1);
   (0x1F60, 0x1F67, 1); (0x1F70, 0x1F7D, 1); (0x1F80, 0x1F87, 1);
   (0x1F90, 0x1F97, 1); (0x1FA0, 0x1FA7, 1); (0x1FB0, 0x1FB4, 1);
   (0x1FB6, 0x1FB7, 1); (0x1FBE, 0x1FBE, 1); (0x1FC2, 0x1FC4, 1);
   (0x1FC6, 0x1FC7, 1); (0x1FD0, 0x1FD3, 1); (0x1FD6, 0x1FD7, 1);
   (0x1FE0, 0x1FE7, 1); (0x1FF2, 0x1FF4, 1); (0x1FF6, 0x1FF7, 1);
   (0x2071, 0x2071, 1); (0x207F, 0x207F, 1); (0x2090, 0x209C, 1);
   (0x210A, 0x210A, 1); (0x210E, 0x210F, 1); (0x2113, 0x2113, 1);
   (0x212F, 0x212F, 1); (0x2134, 0x2134, 1); (0x2139, 0x2139, 1);
   (0x213C, 0x213D, 1); (0x2146, 0x2149, 1); (0x214E, 0x214E, 1);
   (0x2170, 0x217F, 1); (0x2184, 0x2184, 1); (0x24D0, 0x24E9, 1);
   (0x2C30, 0x2C5F, 1); (0x2C61, 0x2C61, 1); (0x2C65, 0x2C66, 1);
   (0x2C68, 0x2C6C, 2); (0x2C71, 0x2C71, 1); (0x2C73, 0x2C74, 1);
   (0x2C76, 0x2C7D, 1); (0x2C81, 0x2CE3, 2); (0x2CE4, 0x2CE4, 1);
   (0x2CEC, 0x2CEC, 1); (0x2CEE, 0x2CEE, 1); (0x2CF3, 0x2CF3, 1);
   (0x2D00, 0x2D25, 1); (0x2D27, 0x2D27, 1); (0x2D2D, 0x2D2D, 1);
   (0xA641, 0xA66D, 2); (0xA681, 0xA69B, 2); (0xA69C, 0xA69D, 1);
   (0xA723, 0xA72F, 2); (0xA730, 0xA731, 1); (0xA733, 0xA76F, 2);
   (0xA770, 0xA778, 1); (0xA77A, 0xA77A, 1); (0xA77C, 0xA77C, 1);
   (0xA77F, 0xA787, 2); (0xA78C, 0xA78C, 1); (0xA78E, 0xA78E, 1);
   (0xA791, 0xA791, 1); (0xA793, 0xA795, 1); (0xA797, 0xA7A9, 2);
   (0xA7AF, 0xA7AF, 1); (0xA7B5, 0xA7C3, 2); (0xA7C8, 0xA7C8, 1);
   (0xA7CA, 0xA7CA, 1); (0xA7D1, 0xA7D9, 2); (0xA7F6, 0xA7F6, 1);
   (0xA7F8, 0xA7FA, 1); (0xAB30, 0xAB5A, 1); (0xAB5C, 0xAB68, 1);
   (0xAB70, 0xABBF, 1); (0xFB00, 0xFB06, 1); (0xFB13, 0xFB17, 1);
   (0xFF41, 0xFF5A, 1); (0x10428, 0x1044F, 1); (0x104D8, 0x104FB, 1);
   (0x10597, 0x105A1, 1); (0x105A3, 0x105B1, 1); (0x105B3, 0x105B9, 1);
   (0x105BB, 0x105BC, 1); (0x10780, 0x10780, 1); (0x10783, 0x10785, 1);
   (0x10787, 0x107B0, 1); (0x107B2, 0x107BA, 1); (0x10CC0, 0x10CF2, 1);
   (0x118C0, 0x118DF, 1); (0x16E60, 0x16E7F, 1); (0x1D41A, 0x1D433, 1);
   (0x1D44E, 0x1D454, 1); (0x1D456, 0x1D467, 1); (0x1D482, 0x1D49B, 1);
   (0x1D4B6, 0x1D4B9, 1); (0x1D4BB, 0x1D4BB, 1); (0x1D4BD, 0x1D4C3, 1);
   (0x1D4C5, 0x1D4CF, 1); (0x1D4EA, 0x1D503, 1); (0x1D51E, 0x1D537, 1);
   (0x1D552, 0x1D56B, 1); (0x1D586, 0x1D59F, 1); (0x1D5BA, 0x1D5D3, 1);
   (0x1D5EE, 0x1D607, 1); (0x1D622, 0x1D63B, 1); (0x1D656, 0x1D66F, 1);
   (0x1D68A, 0x1D6A5, 1); (0x1D6C2, 0x1D6DA, 1); (0x1D6DC, 0x1D6E1, 1);
   (0x1D6FC, 0x1D714, 1); (0x1D716, 0x1D71B, 1); (0x1D736, 0x1D74E, 1);
   (0x1D750, 0x1D755, 1); (0x1D770, 0x1D788, 1); (0x1D78A, 0x1D78F, 1);
   (0x1D7AA, 0x1D7C2, 1); (0x1D7C4, 0x1D7C9, 1); (0x1D7CB, 0x1D7CB, 1);
   (0x1DF00, 0x1DF09, 1); (0x1DF0B, 0x1DF1E, 1); (0x1E922, 0x1E943, 1)]%N.

(** Code points whose Numeric_Type is Digit or Decimal: those on which
    [str.isdigit] holds for a one-character string. *)
Definition digit_runs : list run :=
  [(0x30, 0x39, 1); (0xB2, 0xB3, 1); (0xB9, 0xB9, 1); (0x660, 0x669, 1);
   (0x6F0, 0x6F9, 1); (0x7C0, 0x7C9, 1); (0x966, 0x96F, 1); (0x9E6, 0x9EF, 1);
   (0xA66, 0xA6F, 1); (0xAE6, 0xAEF, 1); (0xB66, 0xB6F, 1); (0xBE6, 0xBEF, 1);
   (0xC66, 0xC6F, 1); (0xCE6, 0xCEF, 1); (0xD66, 0xD6F, 1); (0xDE6, 0xDEF, 1);
   (0xE50, 0xE59, 1); (0xED0, 0xED9, 1); (0xF20, 0xF29, 1);
   (0x1040, 0x1049, 1); (0x1090, 0x1099, 1); (0x1369, 0x1371, 1);
   (0x17E0, 0x17E9, 1); (0x1810, 0x1819, 1); (0x1946, 0x194F, 1);
   (0x19D0, 0x19DA, 1); (0x1A80, 0x1A89, 1); (0x1A90, 0x1A99, 1);
   (0x1B50, 0x1B59, 1); (0x1BB0, 0x1BB9, 1); (0x1C40, 0x1C49, 1);
   (0x1C50, 0x1C59, 1); (0x2070, 0x2070, 1); (0x2074, 0x2079, 1);
   (0x2080, 0x2089, 1); (0x2460, 0x2468, 1); (0x2474, 0x247C, 1);
   (0x2488, 0x2490, 1); (0x24EA, 0x24EA, 1); (0x24F5, 0x24FD, 1);
   (0x24FF, 0x24FF, 1); (0x2776, 0x277E, 1); (0x2780, 0x2788, 1);
   (0x278A, 0x2792, 1); (0xA620, 0xA629, 1); (0xA8D0, 0xA8D9, 1);
   (0xA900, 0xA909, 1); (0xA9D0, 0xA9D9, 1); (0xA9F0, 0xA9F9, 1);
   (0xAA50, 0xAA59, 1); (0xABF0, 0xABF9, 1); (0xFF10, 0xFF19, 1);
   (0x104A0, 0x104A9, 1); (0x10A40, 0x10A43, 1); (0x10D30, 0x10D39, 1);
   (0x10E60, 0x10E68, 1); (0x11052, 0x1105A, 1); (0x11066, 0x1106F, 1);
   (0x110F0, 0x110F9, 1); (0x11136, 0x1113F, 1); (0x111D0, 0x111D9, 1);
   (0x112F0, 0x112F9, 1); (0x11450, 0x11459, 1); (0x114D0, 0x114D9, 1);
   (0x11650, 0x11659, 1); (0x116C0, 0x116C9, 1); (0x11730, 0x11739, 1);
   (0x118E0, 0x118E9, 1); (0x11950, 0x11959, 1); (0x11C50, 0x11C59, 1);
   (0x11D50, 0x11D59, 1); (0x11DA0, 0x11DA9, 1); (0x16A60, 0x16A69, 1);
   (0x16AC0, 0x16AC9, 1); (0x16B50, 0x16B59, 1); (0x1D7CE, 0x1D7FF, 1);
   (0x1E140, 0x1E149, 1); (0x1E2F0, 0x1E2F9, 1); (0x1E950, 0x1E959, 1);
   (0x1F100, 0x1F10A, 1); (0x1FBF0, 0x1FBF9, 1)]%N.
Definition isupper : char -> bool := in_runs uppercase_runs.
Definition islower : char -> bool := in_runs lowercase_runs.
Definition isdigit : char -> bool := in_runs digit_runs.

End Unicode.

(** ** The constants of the module [string] *)

Module PyString.

Definition ascii_uppercase : str := lit "ABCDEFGHIJKLMNOPQRSTUVWXYZ".
Definition ascii_lowercase : str := lit "abcdefghijklmnopqrstuvwxyz".
Definition digits : str := lit "0123456789".

(** [string.punctuation]; the double quote (code point 34) is spliced in
    as a number. *)
Definition punctuation : str :=
  lit "!" ++ [34%N] ++ lit "#$%&'()*+,-./:;<=>?@[\]^_`{|}~".

End PyString.

(** ** Exceptions and the randomness source *)

Inductive exn : Type :=
| OSError
| NotImplementedError
| IndexError.

Inductive result (A : Type) : Type :=
| Ok (a : A)
| Raise (e : exn).

Arguments Ok {A} a.
Arguments Raise {A} e.

(** The operating system's randomness source as [secrets.SystemRandom] sees
    it: [randbelow n] yields a number below [n] and the next state of the
    source, or raises. *)
Class SystemRandom (S : Type) : Type :=
  { randbelow : N -> S -> result (N * S);
    randbelow_below :
      forall (n : N) (s : S) (r : N) (s' : S),
        (0 < n)%N -> randbelow n s = Ok (r, s') -> (r < n)%N }.

(** Computations that use the source and may raise. *)
Definition M (S A : Type) : Type := S -> result (A * S).

Definition ret {S A : Type} (a : A) : M S A := fun s => Ok (a, s).

Definition bind {S A B : Type} (m : M S A) (k : A -> M S B) : M S B :=
  fun s =>
    match m s with
    | Ok (a, s') => k a s'
    | Raise e => Raise e
    end.

Definition raise {S A : Type} (e : exn) : M S A := fun _ => Raise e.

Declare Scope py_scope.
Delimit Scope py_scope with py.
Notation "x <- m ;; k" := (bind m (fun x => k))
  (at level 100, m at next level, right associativity) : py_scope.

Section Secrets.

Context {S : Type} `{SystemRandom S}.

(** [secrets.choice(seq)]: [IndexError] on an empty sequence, otherwise
    [seq[randbelow(len(seq))]]. *)
Definition choice (seq : str) : M S char :=
  match seq with
  | [] => raise IndexError
  | _ =>
      (i <- randbelow (N.of_nat (length seq)) ;;
       match nth_error seq (N.to_nat i) with
       | Some c => ret c
       | None => raise IndexError
       end)%py
  end.

(** ["".join(secrets.choice(alphabet) for _ in range(n))]: the draws are
    made in order, one per character. *)
Fixpoint join_choices (alphabet : str) (n : nat) : M S str :=
  match n with
  | O => ret []
  | Datatypes.S n' =>
      (c <- choice alphabet ;;
       rest <- join_choices alphabet n' ;;
       ret (c :: rest))%py
  end.

End Secrets.

(** ** The class [PasswordGenerator] *)

Module PasswordGenerator.

Import Unicode PyString.

(** The alphabet [generate] accumulates from the four flags. *)
Definition alphabet (use_upper use_lower use_numbers use_symbols : bool) : str :=
  let alphabet := [] in
  let alphabet := if use_upper then alphabet ++ ascii_uppercase else alphabet in
  let alphabet := if use_lower then alphabet ++ ascii_lowercase else alphabet in
  let alphabet := if use_numbers then alphabet ++ digits else alphabet in
  let alphabet := if use_symbols then alphabet ++ punctuation else alphabet in
  alphabet.

(** [generate]; [range(length)] is empty for [length <= 0]. *)
Definition generate {S : Type} `{SystemRandom S} (length : Z)
    (use_upper use_lower use_numbers use_symbols : bool) : M S str :=
  if negb (any [use_upper; use_lower; use_numbers; use_symbols]) then ret []
  else
    join_choices (alphabet use_upper use_lower use_numbers use_symbols)
                 (Z.to_nat length).

(** The pool size [calculate_strength] accumulates. *)
Definition pool_size (password : str) : Z :=
  let pool_size := 0%Z in
  let pool_size :=
    if existsb isupper password then (pool_size + 26)%Z else pool_size in
  let pool_size :=
    if existsb islower password then (pool_size + 26)%Z else pool_size in
  let pool_size :=
    if existsb isdigit password then (pool_size + 10)%Z else pool_size in
  let pool_size :=
    if existsb (contains punctuation) password then (pool_size + 32)%Z
    else pool_size in
  pool_size.

(** [math.log2]. *)
Definition log2 (x : R) : R := (ln x / ln 2)%R.

(** [len(password) * math.log2(pool_size)]. *)
Definition entropy (password : str) : R :=
  (INR (length password) * log2 (IZR (pool_size password)))%R.

Definition calculate_strength (password : str) : Z * string :=
  match password with
  | [] => (0%Z, "Too Short"%string)
  | _ =>
      let pool_size := pool_size password in
      if (pool_size =? 0)%Z then (0%Z, "Weak"%string)
      else
        let entropy := (INR (length password) * log2 (IZR pool_size))%R in
        if Rlt_dec entropy 28 then (0%Z, "Weak"%string)
        else if Rlt_dec entropy 36 then (1%Z, "Fair"%string)
        else if Rlt_dec entropy 60 then (2%Z, "Good"%string)
        else if Rlt_dec entropy 128 then (3%Z, "Strong"%string)
        else (4%Z, "Very Strong"%string)
  end.

(** [len * log2 pool < bits], decided on integers: [pool ^ len < 2 ^ bits]. *)
Definition entropy_below (len : nat) (pool : Z) (bits : Z) : bool :=
  (pool ^ Z.of_nat len <? 2 ^ bits)%Z.

(** [calculate_strength] with the comparisons decided by [entropy_below]. *)
Definition calculate_strength_exec (password : str) : Z * string :=
  match password with
  | [] => (0%Z, "Too Short"%string)
  | _ =>
      let pool_size := pool_size password in
      if (pool_size =? 0)%Z then (0%Z, "Weak"%string)
      else
        let len := length password in
        if entropy_below len pool_size 28 then (0%Z, "Weak"%string)
        else if entropy_below len pool_size 36 then (1%Z, "Fair"%string)
        else if entropy_below len pool_size 60 then (2%Z, "Good"%string)
        else if entropy_below len pool_size 128 then (3%Z, "Strong"%string)
        else (4%Z, "Very Strong"%string)
  end.

End PasswordGenerator.

(** ** Observing the randomness source *)

Section Failures.

Context {S : Type} `{SystemRandom S}.

(** The exception, if any, that the first [k] draws below [n] meet when
    they are made one after the other from the state [s]. *)
Fixpoint first_failure (n : N) (k : nat) (s : S) : option exn :=
  match k with
  | O => None
  | Datatypes.S k' =>
      match randbelow n s with
      | Raise e => Some e
      | Ok (_, s') => first_failure n k' s'
      end
  end.

End Failures.

(** Two sources to run the model on. *)
Module TestSource.

(** A scripted source: each draw consumes the next entry of a tape, which
    is either a raw number, reduced below [n], or an exception; the
    exhausted tape raises [OSError]. *)
Definition tape := list (result N).

Definition tape_randbelow (n : N) (t : tape) : result (N * tape) :=
  match t with
  | [] => Raise OSError
  | Ok v :: t' => Ok ((v mod n)%N, t')
  | Raise e :: _ => Raise e
  end.

#[export] Instance tape_source : SystemRandom tape.
Proof.
  refine {| randbelow := tape_randbelow |}.
  intros n [|[v|e] t] r s' Hn Hdraw; simpl in Hdraw; try discriminate.
  injection Hdraw as <- _. apply N.mod_lt. lia.
Defined.

(** A source that never raises: a counter stepped at each draw. *)
Definition counter := N.

Definition counter_randbelow (n : N) (s : counter) : result (N * counter) :=
  Ok ((s mod n)%N, (s + 7)%N).

#[export] Instance counter_source : SystemRandom counter.
Proof.
  refine {| randbelow := counter_randbelow |}.
  intros n s r s' Hn Hdraw. unfold counter_randbelow in Hdraw.
  injection Hdraw as <- _. apply N.mod_lt. lia.
Defined.

End TestSource.

(** ** The specification's vocabulary *)

Module Spec.

Import PyString.

Inductive CharacterClass : Type :=
| Uppercase
| Lowercase
| Digits
| Symbols.

Definition class_eqb (a b : CharacterClass) : bool :=
  match a, b with
  | Uppercase, Uppercase | Lowercase, Lowercase
  | Digits, Digits | Symbols, Symbols => true
  | _, _ => false
  end.

(** The fixed character set of a class. *)
Definition charset (k : CharacterClass) : str :=
  match k with
  | Uppercase => ascii_uppercase
  | Lowercase => ascii_lowercase
  | Digits => digits
  | Symbols => punctuation
  end.

(** A set of classes is a list, in any order and with repetitions. *)
Definition enabled (classes : list CharacterClass) (k : CharacterClass) : bool :=
  existsb (class_eqb k) classes.

(** [build_alphabet] as the specification words it: the character sets of
    the enabled classes, concatenated in the order Uppercase, Lowercase,
    Digits, Symbols. *)
Definition build_alphabet (classes : list CharacterClass) : str :=
  flat_map (fun k => if enabled classes k then charset k else [])
           [Uppercase; Lowercase; Digits; Symbols].

(** The four recognized classes as the specification words them. *)
Definition is_upper_latin (c : char) : bool := ((65 <=? c) && (c <=? 90))%N.
Definition is_lower_latin (c : char) : bool := ((97 <=? c) && (c <=? 122))%N.
Definition is_decimal_digit (c : char) : bool := ((48 <=? c) && (c <=? 57))%N.
Definition is_symbol (c : char) : bool := contains punctuation c.

Definition recognized (c : char) : bool :=
  is_upper_latin c || is_lower_latin c || is_decimal_digit c || is_symbol c.

(** The pool size as the specification words it: 26 for an uppercase Latin
    letter, 26 for a lowercase Latin letter, 10 for a decimal digit, 32 for
    a symbol, summed. *)
Definition pool_size (password : str) : Z :=
  ((if existsb is_upper_latin password then 26 else 0)
   + (if existsb is_lower_latin password then 26 else 0)
   + (if existsb is_decimal_digit password then 10 else 0)
   + (if existsb is_symbol password then 32 else 0))%Z.

End Spec.

(** Characters on which none of the four tests of [calculate_strength]
    holds. *)
Definition unclassified (c : char) : bool :=
  negb (Unicode.isupper c || Unicode.islower c || Unicode.isdigit c
        || contains PyString.punctuation c).

(** The four flags as a set of classes. *)
Definition selection (use_upper use_lower use_numbers use_symbols : bool)
  : list Spec.CharacterClass :=
  (if use_upper then [Spec.Uppercase] else [])
  ++ (if use_lower then [Spec.Lowercase] else [])
  ++ (if use_numbers then [Spec.Digits] else [])
  ++ (if use_symbols then [Spec.Symbols] else []).

(** ** Replaying the draws *)

Section Trace.

Context {S : Type} `{SystemRandom S}.

(** The numbers that [k] successive draws below [n] yield from the state
    [s], with the state they leave, or the first exception met. *)
Fixpoint draws (n : N) (k : nat) (s : S) : result (list N * S) :=
  match k with
  | O => Ok ([], s)
  | Datatypes.S k' =>
      match randbelow n s with
      | Raise e => Raise e
      | Ok (i, s1) =>
          match draws n k' s1 with
          | Raise e => Raise e
          | Ok (rest, s2) => Ok (i :: rest, s2)
          end
      end
  end.

End Trace.

(** ** The window [PasswordGeneratorApp] *)

Module PasswordGeneratorApp.

(** The widgets that [generate_password] and [_update_strength_meter] read
    and write: the value of the slider, the four check boxes, the text of
    the display, and the value, style sheets and text of the strength
    meter. *)
Record widgets : Type :=
  { length_slider : Z;
    chk_upper : bool;
    chk_lower : bool;
    chk_numbers : bool;
    chk_symbols : bool;
    password_display : str;
    strength_bar : Z;
    strength_bar_style : string;
    strength_label : string;
    strength_label_style : string }.

(** [QLineEdit.setText] on the display. *)
Definition password_display_setText (text : str) (w : widgets) : widgets :=
  {| length_slider := length_slider w;
     chk_upper := chk_upper w; chk_lower := chk_lower w;
     chk_numbers := chk_numbers w; chk_symbols := chk_symbols w;
     password_display := text;
     strength_bar := strength_bar w;
     strength_bar_style := strength_bar_style w;
     strength_label := strength_label w;
     strength_label_style := strength_label_style w |}.

(** [QProgressBar.setValue] on a bar with the default range 0..100: a value
    outside the range is ignored. *)
Definition strength_bar_setValue (value : Z) (w : widgets) : widgets :=
  if ((value <? 0) || (100 <? value))%Z then w
  else
    {| length_slider := length_slider w;
       chk_upper := chk_upper w; chk_lower := chk_lower w;
       chk_numbers := chk_numbers w; chk_symbols := chk_symbols w;
       password_display := password_display w;
       strength_bar := value;
       strength_bar_style := strength_bar_style w;
       strength_label := strength_label w;
       strength_label_style := strength_label_style w |}.

Definition strength_bar_setStyleSheet (sheet : string) (w : widgets) : widgets :=
  {| length_slider := length_slider w;
     chk_upper := chk_upper w; chk_lower := chk_lower w;
     chk_numbers := chk_numbers w; chk_symbols := chk_symbols w;
     password_display := password_display w;
     strength_bar := strength_bar w;
     strength_bar_style := sheet;
     strength_label := strength_label w;
     strength_label_style := strength_label_style w |}.

Definition strength_label_setText (text : string) (w : widgets) : widgets :=
  {| length_slider := length_slider w;
     chk_upper := chk_upper w; chk_lower := chk_lower w;
     chk_numbers := chk_numbers w; chk_symbols := chk_symbols w;
     password_display := password_display w;
     strength_bar := strength_bar w;
     strength_bar_style := strength_bar_style w;
     strength_label := text;
     strength_label_style := strength_label_style w |}.

Definition strength_label_setStyleSheet (sheet : string) (w : widgets) : widgets :=
  {| length_slider := length_slider w;
     chk_upper := chk_upper w; chk_lower := chk_lower w;
     chk_numbers := chk_numbers w; chk_symbols := chk_symbols w;
     password_display := password_display w;
     strength_bar := strength_bar w;
     strength_bar_style := strength_bar_style w;
     strength_label := strength_label w;
     strength_label_style := sheet |}.

(** The dictionary [colors] of [_update_strength_meter]. *)
Definition colors : list (Z * string) :=
  [(0%Z, "#ff3b30"%string); (1%Z, "#ff9500"%string); (2%Z, "#ffcc00"%string);
   (3%Z, "#34c759"%string); (4%Z, "#30b0c7"%string)].

(** [d.get(key, default)]. *)
Fixpoint get (d : list (Z * string)) (key : Z) (default : string) : string :=
  match d with
  | [] => default
  | (k, v) :: d' => if (k =? key)%Z then v else get d' key default
  end.

(** The style sheet of the bar, around the colour. *)
Definition bar_sheet_before : string := "
            QProgressBar {
                border: none;
                background-color: #e5e5ea;
                border-radius: 4px;
                height: 8px;
            }
            QProgressBar::chunk {
                background-color: "%string.

Definition bar_sheet_after : string := ";
                border-radius: 4px;
            }
        "%string.

Definition _update_strength_meter (w : widgets) (password : str) : widgets :=
  let '(score, label) := PasswordGenerator.calculate_strength password in
  let color := get colors score "#e5e5ea"%string in
  let val := ((score + 1) * 20)%Z in
  let w := strength_bar_setValue val w in
  let w :=
    strength_bar_setStyleSheet
      (bar_sheet_before ++ color ++ bar_sheet_after)%string w in
  let w := strength_label_setText ("Strength: " ++ label)%string w in
  strength_label_setStyleSheet
    ("font-size: 12px; font-weight: bold; color: " ++ color ++ ";")%string w.

Section Slots.

Context {S : Type} `{SystemRandom S}.

(** [chk_lower.setChecked(checked)].  The signal [stateChanged] of the box
    is connected to [generate_password], and the connection is direct: when
    the call changes the state of the box, the slot runs before the call
    returns.  [None] stands for a slot that was not run to its end. *)
Definition chk_lower_setChecked (slot : widgets -> M S (option widgets))
    (checked : bool) (w : widgets) : M S (option widgets) :=
  if Bool.eqb (chk_lower w) checked then ret (Some w)
  else
    slot {| length_slider := length_slider w;
            chk_upper := chk_upper w; chk_lower := checked;
            chk_numbers := chk_numbers w; chk_symbols := chk_symbols w;
            password_display := password_display w;
            strength_bar := strength_bar w;
            strength_bar_style := strength_bar_style w;
            strength_label := strength_label w;
            strength_label_style := strength_label_style w |}.

(** [generate_password]; [depth] bounds the nesting of the slot inside
    itself, and [None] is returned when the bound is reached. *)
Fixpoint generate_password (depth : nat) (w : widgets) : M S (option widgets) :=
  match depth with
  | O => ret None
  | Datatypes.S depth' =>
      let length := length_slider w in
      let use_upper := chk_upper w in
      let use_lower := chk_lower w in
      let use_numbers := chk_numbers w in
      let use_symbols := chk_symbols w in
      if negb (any [use_upper; use_lower; use_numbers; use_symbols]) then
        (r <- chk_lower_setChecked (generate_password depth') true w ;;
         match r with
         | None => ret None
         | Some w =>
             let use_lower := true in
             pwd <- PasswordGenerator.generate length use_upper use_lower
                      use_numbers use_symbols ;;
             let w := password_display_setText pwd w in
             ret (Some (_update_strength_meter w pwd))
         end)%py
      else
        (pwd <- PasswordGenerator.generate length use_upper use_lower
                  use_numbers use_symbols ;;
         let w := password_display_setText pwd w in
         ret (Some (_update_strength_meter w pwd)))%py
  end.

End Slots.

End PasswordGeneratorApp.

(** ** The source observed also when it raises *)

(** An exception does not undo what the source has consumed: here a draw
    returns the state it leaves the source in whether it yields a number or
    raises, and [generate] is run in the monad that keeps that state, so
    that what happens after a failed draw can be told. *)
Module Traced.

Class Source (S : Type) : Type :=
  { randbelow : N -> S -> result N * S;
    randbelow_below :
      forall (n : N) (s : S) (r : N) (s' : S),
        (0 < n)%N -> randbelow n s = (Ok r, s') -> (r < n)%N }.

Definition M (S A : Type) : Type := S -> result A * S.

Definition ret {S A : Type} (a : A) : M S A := fun s => (Ok a, s).

Definition bind {S A B : Type} (m : M S A) (k : A -> M S B) : M S B :=
  fun s =>
    match m s with
    | (Ok a, s') => k a s'
    | (Raise e, s') => (Raise e, s')
    end.

Definition raise {S A : Type} (e : exn) : M S A := fun s => (Raise e, s).

Declare Scope traced_scope.
Delimit Scope traced_scope with traced.
Notation "x <- m ;; k" := (bind m (fun x => k))
  (at level 100, m at next level, right associativity) : traced_scope.

Section Secrets.

Context {S : Type} `{Source S}.

(** [secrets.choice(seq)]. *)
Definition choice (seq : str) : M S char :=
  match seq with
  | [] => raise IndexError
  | _ =>
      (i <- randbelow (N.of_nat (length seq)) ;;
       match nth_error seq (N.to_nat i) with
       | Some c => ret c
       | None => raise IndexError
       end)%traced
  end.

(** ["".join(secrets.choice(alphabet) for _ in range(n))]. *)
Fixpoint join_choices (alphabet : str) (n : nat) : M S str :=
  match n with
  | O => ret []
  | Datatypes.S n' =>
      (c <- choice alphabet ;;
       rest <- join_choices alphabet n' ;;
       ret (c :: rest))%traced
  end.

(** [PasswordGenerator.generate]. *)
Definition generate (length : Z)
    (use_upper use_lower use_numbers use_symbols : bool) : M S str :=
  if negb (any [use_upper; use_lower; use_numbers; use_symbols]) then ret []
  else
    join_choices
      (PasswordGenerator.alphabet use_upper use_lower use_numbers use_symbols)
      (Z.to_nat length).

(** The first exception that [k] successive draws below [n] meet from the
    state [s], with the state of the source right after the draw that
    raised it. *)
Fixpoint first_failure (n : N) (k : nat) (s : S) : option (exn * S) :=
  match k with
  | O => None
  | Datatypes.S k' =>
      match randbelow n s with
      | (Raise e, s') => Some (e, s')
      | (Ok _, s') => first_failure n k' s'
      end
  end.

(** The state of the source after [k] successive draws below [n], as long
    as none raises. *)
Fixpoint after_draws (n : N) (k : nat) (s : S) : S :=
  match k with
  | O => s
  | Datatypes.S k' =>
      match randbelow n s with
      | (Raise _, s') => s'
      | (Ok _, s') => after_draws n k' s'
      end
  end.

End Secrets.

(** A scripted source: a draw consumes the next entry of the tape, a number
    or an exception; the exhausted tape raises [OSError]. *)
Definition tape := list (result N).

Definition tape_randbelow (n : N) (t : tape) : result N * tape :=
  match t with
  | [] => (Raise OSError, [])
  | Ok v :: t' => (Ok (v mod n)%N, t')
  | Raise e :: t' => (Raise e, t')
  end.

#[export] Instance tape_source : Source tape.
Proof.
  refine {| randbelow := tape_randbelow |}.
  intros n [|[v|e] t] r s' Hn Hdraw; simpl in Hdraw; try discriminate.
  injection Hdraw as <- _. apply N.mod_lt. lia.
Defined.

End Traced.

(** Forgetting the state a failed draw leaves gives a source in the sense
    of [SystemRandom]. *)
Definition forget {S A : Type} (r : result A * S) : result (A * S) :=
  match r with
  | (Ok a, s) => Ok (a, s)
  | (Raise e, _) => Raise e
  end.

Definition forgetful_source {S : Type} (src : Traced.Source S)
  : SystemRandom S.
Proof.
  refine {| randbelow := fun n s => forget (Traced.randbelow n s) |}.
  intros n s r s' Hn Hdraw. unfold forget in Hdraw.
  destruct (Traced.randbelow n s) as [[i|e] s1] eqn:Hraw; [ | discriminate Hdraw ].
  injection Hdraw as <- <-.
  eapply Traced.randbelow_below; [ exact Hn | exact Hraw ].
Defined.

(** * Properties *)

Import Unicode PyString PasswordGenerator.

(** ** Characters *)

Lemma below_128_cases (P : char -> bool) :
  forallb P (map N.of_nat (seq 0 128)) = true ->
  forall c : char, (c < 128)%N -> P c = true.
Proof.
  intros Hall c Hc.
  rewrite forallb_forall in Hall. apply Hall.
  rewrite <- (N2Nat.id c). apply in_map. apply in_seq. lia.
Qed.

Lemma isupper_ascii (c : char) :
  (c < 128)%N -> isupper c = Spec.is_upper_latin c.
Proof.
  intro Hc. apply eqb_prop.
  apply (below_128_cases (fun c => eqb (isupper c) (Spec.is_upper_latin c)));
    [ vm_compute; reflexivity | exact Hc ].
Qed.

Lemma islower_ascii (c : char) :
  (c < 128)%N -> islower c = Spec.is_lower_latin c.
Proof.
  intro Hc. apply eqb_prop.
  apply (below_128_cases (fun c => eqb (islower c) (Spec.is_lower_latin c)));
    [ vm_compute; reflexivity | exact Hc ].
Qed.

Lemma isdigit_ascii (c : char) :
  (c < 128)%N -> isdigit c = Spec.is_decimal_digit c.
Proof.
  intro Hc. apply eqb_prop.
  apply (below_128_cases (fun c => eqb (isdigit c) (Spec.is_decimal_digit c)));
    [ vm_compute; reflexivity | exact Hc ].
Qed.

Lemma existsb_ext_Forall {A : Type} (f g : A -> bool) (Q : A -> Prop) (l : list A) :
  (forall x, Q x -> f x = g x) -> Forall Q l -> existsb f l = existsb g l.
Proof.
  intros Hfg Hl. induction Hl as [|x l Hx _ IH]; simpl.
  - reflexivity.
  - rewrite (Hfg x Hx), IH. reflexivity.
Qed.

(** ** Entropy: real numbers and integer powers *)

Lemma ln_2_pos : (0 < ln 2)%R.
Proof. pose proof ln_lt_2. lra. Qed.

Lemma log2_lt_iff (len bits : nat) (x : R) :
  (0 < x)%R ->
  (INR len * log2 x < INR bits)%R <-> (x ^ len < 2 ^ bits)%R.
Proof.
  intro Hx. unfold log2. pose proof ln_2_pos as H2.
  assert (Hxl : (0 < x ^ len)%R) by (apply pow_lt; exact Hx).
  assert (H2b : (0 < 2 ^ bits)%R) by (apply pow_lt; lra).
  replace (INR len * (ln x / ln 2))%R with (ln (x ^ len) / ln 2)%R
    by (rewrite ln_pow by exact Hx; field; lra).
  replace (INR bits) with (ln (2 ^ bits) / ln 2)%R
    by (rewrite ln_pow by lra; field; lra).
  split; intro Hlt.
  - apply ln_lt_inv; try assumption.
    apply (Rmult_lt_reg_r (/ ln 2)); [ apply Rinv_0_lt_compat; exact H2 | exact Hlt ].
  - apply Rmult_lt_compat_r; [ apply Rinv_0_lt_compat; exact H2 | ].
    apply ln_increasing; assumption.
Qed.

Lemma entropy_below_spec (len : nat) (pool : Z) (bits : nat) :
  (0 < pool)%Z ->
  entropy_below len pool (Z.of_nat bits) = true
  <-> (INR len * log2 (IZR pool) < IZR (Z.of_nat bits))%R.
Proof.
  intro Hpool. unfold entropy_below.
  rewrite Z.ltb_lt, <- INR_IZR_INZ, log2_lt_iff by (apply IZR_lt; exact Hpool).
  rewrite pow_IZR. change 2%R with (IZR 2). rewrite pow_IZR.
  split; [ apply IZR_lt | apply lt_IZR ].
Qed.

Lemma Rlt_dec_entropy_below {A : Type} (len : nat) (pool : Z) (bits : nat) (a b : A) :
  (0 < pool)%Z ->
  (if Rlt_dec (INR len * log2 (IZR pool)) (IZR (Z.of_nat bits)) then a else b)
  = (if entropy_below len pool (Z.of_nat bits) then a else b).
Proof.
  intro Hpool. pose proof (entropy_below_spec len bits Hpool) as Hspec.
  destruct (Rlt_dec _ _) as [Hlt | Hge];
    destruct (entropy_below len pool (Z.of_nat bits)); try reflexivity.
  - apply Hspec in Hlt. discriminate.
  - exfalso. apply Hge, Hspec. reflexivity.
Qed.

Lemma pool_size_values (password : str) :
  In (pool_size password) [0; 10; 26; 32; 36; 42; 52; 58; 62; 68; 84; 94]%Z.
Proof.
  unfold pool_size.
  destruct (existsb isupper password), (existsb islower password),
    (existsb isdigit password), (existsb (contains punctuation) password);
    simpl; tauto.
Qed.

Lemma pool_size_nonneg (password : str) : (0 <= pool_size password)%Z.
Proof.
  pose proof (pool_size_values password) as Hin. simpl in Hin.
  repeat (destruct Hin as [Hin | Hin]; [ lia | ]). contradiction.
Qed.

(** The executable estimator computes what the real-number one does. *)
Lemma calculate_strength_exec_correct (password : str) :
  calculate_strength password = calculate_strength_exec password.
Proof.
  unfold calculate_strength, calculate_strength_exec.
  destruct password as [|c rest]; [ reflexivity | ].
  set (p := c :: rest).
  destruct (pool_size p =? 0)%Z eqn:Hzero; [ reflexivity | ].
  apply Z.eqb_neq in Hzero.
  assert (Hpos : (0 < pool_size p)%Z) by (pose proof (pool_size_nonneg p); lia).
  change 28%R with (IZR (Z.of_nat 28)). change 36%R with (IZR (Z.of_nat 36)).
  change 60%R with (IZR (Z.of_nat 60)). change 128%R with (IZR (Z.of_nat 128)).
  cbv zeta.
  rewrite !(Rlt_dec_entropy_below _ _ _ _ Hpos).
  reflexivity.
Qed.

(** ** Drawing characters *)

Lemma alphabet_concat (use_upper use_lower use_numbers use_symbols : bool) :
  alphabet use_upper use_lower use_numbers use_symbols
  = (if use_upper then ascii_uppercase else [])
    ++ (if use_lower then ascii_lowercase else [])
    ++ (if use_numbers then digits else [])
    ++ (if use_symbols then punctuation else []).
Proof.
  unfold alphabet.
  destruct use_upper, use_lower, use_numbers, use_symbols;
    cbv zeta; rewrite ?app_nil_r, ?app_nil_l, <- ?app_assoc; reflexivity.
Qed.

Lemma alphabet_nonempty (use_upper use_lower use_numbers use_symbols : bool) :
  any [use_upper; use_lower; use_numbers; use_symbols] = true ->
  alphabet use_upper use_lower use_numbers use_symbols <> [].
Proof.
  destruct use_upper, use_lower, use_numbers, use_symbols;
    intros Hany Hnil; try discriminate Hany; vm_compute in Hnil; discriminate Hnil.
Qed.

Section Draws.

Context {S : Type} `{SystemRandom S}.

Lemma choice_draw (a : str) (s : S) :
  a <> [] ->
  match randbelow (N.of_nat (length a)) s with
  | Ok (_, s') => exists c, choice a s = Ok (c, s') /\ In c a
  | Raise e => choice a s = Raise e
  end.
Proof.
  intro Hne. destruct a as [|x a']; [ congruence | ].
  unfold choice, bind.
  destruct (randbelow (N.of_nat (length (x :: a'))) s) as [[r s']|e] eqn:Hdraw;
    [ | reflexivity ].
  apply randbelow_below in Hdraw; [ | simpl; lia ].
  destruct (nth_error (x :: a') (N.to_nat r)) as [c|] eqn:Hnth.
  - exists c. split; [ reflexivity | ]. eapply nth_error_In; exact Hnth.
  - apply nth_error_None in Hnth. lia.
Qed.

Lemma join_choices_spec (a : str) (k : nat) :
  a <> [] ->
  forall s : S,
    match first_failure (N.of_nat (length a)) k s with
    | Some e => join_choices a k s = Raise e
    | None =>
        exists (pw : str) (s' : S),
          join_choices a k s = Ok (pw, s')
          /\ length pw = k /\ Forall (fun c => In c a) pw
    end.
Proof.
  intro Hne. induction k as [|k IH]; intro s; simpl.
  - exists [], s. repeat split. constructor.
  - pose proof (choice_draw s Hne) as Hchoice. unfold bind.
    destruct (randbelow (N.of_nat (length a)) s) as [[r s1]|e].
    + destruct Hchoice as (c & -> & Hin).
      specialize (IH s1).
      destruct (first_failure (N.of_nat (length a)) k s1) as [e|].
      * rewrite IH. reflexivity.
      * destruct IH as (pw & s' & -> & Hlen & Hall).
        exists (c :: pw), s'. simpl. repeat split; [ congruence | ].
        constructor; assumption.
    + rewrite Hchoice. reflexivity.
Qed.

End Draws.

(** ** The claims about [generate] *)

(** C1. With at least one class enabled and a length [L >= 1], on a source
    whose first [L] draws do not raise, [generate] returns a string of
    exactly [L] characters, each of them a member of the alphabet
    concatenated from the enabled classes. *)
Theorem generate_length_and_members
    (S : Type) (src : SystemRandom S) (L : Z)
    (use_upper use_lower use_numbers use_symbols : bool) (s : S) :
  any [use_upper; use_lower; use_numbers; use_symbols] = true ->
  (1 <= L)%Z ->
  first_failure
    (N.of_nat (length (alphabet use_upper use_lower use_numbers use_symbols)))
    (Z.to_nat L) s = None ->
  exists (pw : str) (s' : S),
    generate L use_upper use_lower use_numbers use_symbols s = Ok (pw, s')
    /\ Z.of_nat (length pw) = L
    /\ Forall (fun c =>
                 In c ((if use_upper then ascii_uppercase else [])
                       ++ (if use_lower then ascii_lowercase else [])
                       ++ (if use_numbers then digits else [])
                       ++ (if use_symbols then punctuation else []))) pw.
Proof.
  intros Hany HL Hsrc. unfold generate. rewrite Hany. simpl negb. cbv iota.
  pose proof (join_choices_spec (Z.to_nat L) (alphabet_nonempty _ _ _ _ Hany) s)
    as Hjoin.
  rewrite Hsrc in Hjoin. destruct Hjoin as (pw & s' & Hrun & Hlen & Hall).
  exists pw, s'. rewrite <- alphabet_concat.
  repeat split; [ exact Hrun | lia | exact Hall ].
Qed.

Lemma generate_length_and_members_witness :
  exists (pw : str) (s' : TestSource.counter),
    @generate _ TestSource.counter_source 5 false true true false 3%N
    = Ok (pw, s')
    /\ Z.of_nat (length pw) = 5%Z
    /\ Forall (fun c => In c ([] ++ ascii_lowercase ++ digits ++ [])) pw.
Proof.
  apply (@generate_length_and_members _ TestSource.counter_source 5%Z
            false true true false 3%N).
  - reflexivity.
  - lia.
  - reflexivity.
Defined.

(** C6. On degenerate input [generate] returns the empty string and raises
    nothing, without touching the source: with no class enabled whatever
    the length, and with a length [<= 0] whatever the classes. *)
Theorem generate_degenerate_input
    (S : Type) (src : SystemRandom S) (L : Z)
    (use_upper use_lower use_numbers use_symbols : bool) (s : S) :
  any [use_upper; use_lower; use_numbers; use_symbols] = false \/ (L <= 0)%Z ->
  generate L use_upper use_lower use_numbers use_symbols s = Ok ([], s).
Proof.
  intros [Hnone | HL]; unfold generate.
  - rewrite Hnone. reflexivity.
  - destruct (negb _); [ reflexivity | ].
    replace (Z.to_nat L) with 0%nat by lia. reflexivity.
Qed.

Lemma generate_degenerate_input_witness :
  @generate _ TestSource.tape_source (-4) true true false true [Raise OSError]
  = Ok ([], [Raise OSError])
  /\ @generate _ TestSource.tape_source 16 false false false false [Raise OSError]
     = Ok ([], [Raise OSError]).
Proof.
  split.
  - apply (@generate_degenerate_input _ TestSource.tape_source (-4)%Z
              true true false true [Raise OSError]).
    right. lia.
  - apply (@generate_degenerate_input _ TestSource.tape_source 16%Z
              false false false false [Raise OSError]).
    left. reflexivity.
Defined.

(** C7. The alphabet is the concatenation of the enabled classes' character
    sets in the order Uppercase, Lowercase, Digits, Symbols: it is the
    specification's [build_alphabet] of the set of enabled classes, however
    that set is listed; with Digits alone it is "0123456789". *)
Theorem alphabet_fixed_order :
  (forall use_upper use_lower use_numbers use_symbols : bool,
      alphabet use_upper use_lower use_numbers use_symbols
      = (if use_upper then ascii_uppercase else [])
        ++ (if use_lower then ascii_lowercase else [])
        ++ (if use_numbers then digits else [])
        ++ (if use_symbols then punctuation else []))
  /\ (forall classes : list Spec.CharacterClass,
         Spec.build_alphabet classes
         = alphabet (Spec.enabled classes Spec.Uppercase)
                    (Spec.enabled classes Spec.Lowercase)
                    (Spec.enabled classes Spec.Digits)
                    (Spec.enabled classes Spec.Symbols))
  /\ alphabet false false true false = lit "0123456789"
  /\ Spec.build_alphabet [Spec.Digits] = lit "0123456789".
Proof.
  split; [ exact alphabet_concat | ].
  split; [ | split; reflexivity ].
  intro classes. rewrite alphabet_concat. unfold Spec.build_alphabet. simpl.
  rewrite app_nil_r. reflexivity.
Qed.

(** [generate] raises exactly when a class is enabled and one of its
    [length] draws raises, and the exception it raises is the one of the
    first draw that failed. *)
Theorem generate_propagates_failure
    (S : Type) (src : SystemRandom S) (L : Z)
    (use_upper use_lower use_numbers use_symbols : bool) (s : S) (e : exn) :
  generate L use_upper use_lower use_numbers use_symbols s = Raise e
  <-> any [use_upper; use_lower; use_numbers; use_symbols] = true
      /\ first_failure
           (N.of_nat (length (alphabet use_upper use_lower use_numbers use_symbols)))
           (Z.to_nat L) s = Some e.
Proof.
  unfold generate.
  destruct (any [use_upper; use_lower; use_numbers; use_symbols]) eqn:Hany;
    cbv beta iota delta [negb].
  - pose proof (join_choices_spec (Z.to_nat L) (alphabet_nonempty _ _ _ _ Hany) s)
      as Hjoin.
    destruct (first_failure _ _ s) as [e'|].
    + rewrite Hjoin. split.
      * intro Heq. injection Heq as ->. split; reflexivity.
      * intros [_ Heq]. injection Heq as ->. reflexivity.
    + destruct Hjoin as (pw & s' & -> & _). split.
      * discriminate.
      * intros [_ Heq]. discriminate Heq.
  - split; [ discriminate | intros [Habs _]; discriminate Habs ].
Qed.

Lemma generate_propagates_failure_witness :
  @generate _ TestSource.tape_source 3 true false false false
    [Ok 30%N; Raise NotImplementedError; Ok 1%N]
  = Raise NotImplementedError.
Proof.
  apply (@generate_propagates_failure _ TestSource.tape_source 3%Z
            true false false false
            [Ok 30%N; Raise NotImplementedError; Ok 1%N] NotImplementedError).
  split; reflexivity.
Defined.

(** ** The pool size *)

Lemma pool_size_sum (password : str) :
  pool_size password
  = ((if existsb isupper password then 26 else 0)
     + (if existsb islower password then 26 else 0)
     + (if existsb isdigit password then 10 else 0)
     + (if existsb (contains punctuation) password then 32 else 0))%Z.
Proof.
  unfold pool_size.
  destruct (existsb isupper password), (existsb islower password),
    (existsb isdigit password), (existsb (contains punctuation) password);
    reflexivity.
Qed.

Lemma pool_size_ascii (password : str) :
  Forall (fun c => (c < 128)%N) password ->
  pool_size password = Spec.pool_size password.
Proof.
  intro Hascii. rewrite pool_size_sum. unfold Spec.pool_size, Spec.is_symbol.
  rewrite (existsb_ext_Forall isupper Spec.is_upper_latin isupper_ascii Hascii).
  rewrite (existsb_ext_Forall islower Spec.is_lower_latin islower_ascii Hascii).
  rewrite (existsb_ext_Forall isdigit Spec.is_decimal_digit isdigit_ascii Hascii).
  reflexivity.
Qed.

Lemma existsb_weaken {A : Type} (f g : A -> bool) (l : list A) :
  (forall x, f x = true -> g x = true) ->
  existsb f l = true -> existsb g l = true.
Proof.
  intros Hfg Hf. apply existsb_exists in Hf as (x & Hin & Hx).
  apply existsb_exists. exists x. split; [ exact Hin | apply Hfg, Hx ].
Qed.

Lemma upper_latin_isupper (c : char) : Spec.is_upper_latin c = true -> isupper c = true.
Proof.
  intro Hc. rewrite isupper_ascii; [ exact Hc | ].
  unfold Spec.is_upper_latin in Hc. apply andb_true_iff in Hc as [_ Hhi].
  apply N.leb_le in Hhi. lia.
Qed.

Lemma lower_latin_islower (c : char) : Spec.is_lower_latin c = true -> islower c = true.
Proof.
  intro Hc. rewrite islower_ascii; [ exact Hc | ].
  unfold Spec.is_lower_latin in Hc. apply andb_true_iff in Hc as [_ Hhi].
  apply N.leb_le in Hhi. lia.
Qed.

Lemma decimal_digit_isdigit (c : char) : Spec.is_decimal_digit c = true -> isdigit c = true.
Proof.
  intro Hc. rewrite isdigit_ascii; [ exact Hc | ].
  unfold Spec.is_decimal_digit in Hc. apply andb_true_iff in Hc as [_ Hhi].
  apply N.leb_le in Hhi. lia.
Qed.

Lemma pool_size_four_classes (password : str) :
  existsb Spec.is_upper_latin password = true ->
  existsb Spec.is_lower_latin password = true ->
  existsb Spec.is_decimal_digit password = true ->
  existsb Spec.is_symbol password = true ->
  pool_size password = 94%Z.
Proof.
  intros Hu Hl Hd Hs. rewrite pool_size_sum.
  rewrite (existsb_weaken _ isupper _ upper_latin_isupper Hu).
  rewrite (existsb_weaken _ islower _ lower_latin_islower Hl).
  rewrite (existsb_weaken _ isdigit _ decimal_digit_isdigit Hd).
  change (existsb (contains punctuation) password = true) in Hs.
  rewrite Hs. reflexivity.
Qed.

Lemma strength_of_full_pool (password : str) :
  length password = 20%nat -> pool_size password = 94%Z ->
  calculate_strength password = (4%Z, "Very Strong"%string).
Proof.
  intros Hlen Hpool. rewrite calculate_strength_exec_correct.
  unfold calculate_strength_exec.
  destruct password as [|c rest]; [ discriminate Hlen | ].
  rewrite Hpool, Hlen. vm_compute. reflexivity.
Qed.

Lemma log2_32 : log2 32 = 5%R.
Proof.
  unfold log2. replace 32%R with (2 ^ 5)%R by (simpl; lra).
  rewrite ln_pow by lra. pose proof ln_2_pos. simpl INR. field. lra.
Qed.

Lemma unclassified_tests (c : char) :
  unclassified c = true ->
  isupper c = false /\ islower c = false /\ isdigit c = false
  /\ contains punctuation c = false.
Proof.
  unfold unclassified. rewrite negb_true_iff, !orb_false_iff. tauto.
Qed.

Lemma existsb_skip {A : Type} (f : A -> bool) (l1 l2 : list A) (x : A) :
  f x = false -> existsb f (l1 ++ x :: l2) = existsb f (l1 ++ l2).
Proof.
  intro Hx. rewrite !existsb_app. simpl. rewrite Hx. reflexivity.
Qed.

Lemma existsb_none {A : Type} (f : A -> bool) (l : list A) :
  Forall (fun x => f x = false) l -> existsb f l = false.
Proof.
  intro Hall. induction Hall as [|x l Hx _ IH]; simpl.
  - reflexivity.
  - rewrite Hx, IH. reflexivity.
Qed.

Lemma pool_size_unclassified (password : str) :
  Forall (fun c => unclassified c = true) password -> pool_size password = 0%Z.
Proof.
  intro Hall. rewrite pool_size_sum.
  rewrite !existsb_none; [ reflexivity | | | | ];
    (eapply Forall_impl; [ | exact Hall ]);
    intros c Hc; apply unclassified_tests in Hc; tauto.
Qed.

Lemma unclassified_ascii (c : char) :
  (c < 128)%N -> unclassified c = negb (Spec.recognized c).
Proof.
  intro Hc. unfold unclassified, Spec.recognized, Spec.is_symbol.
  rewrite isupper_ascii, islower_ascii, isdigit_ascii by exact Hc. reflexivity.
Qed.

(** ** Monotonicity of the comparisons *)

Lemma entropy_below_antitone (len len' : nat) (pool pool' bits : Z) :
  (0 < pool <= pool')%Z -> (len <= len')%nat ->
  entropy_below len' pool' bits = true -> entropy_below len pool bits = true.
Proof.
  unfold entropy_below. intros Hpool Hlen Hbelow.
  apply Z.ltb_lt in Hbelow. apply Z.ltb_lt.
  apply Z.le_lt_trans with (pool' ^ Z.of_nat len')%Z; [ | exact Hbelow ].
  apply Z.le_trans with (pool' ^ Z.of_nat len)%Z.
  - apply Z.pow_le_mono_l. lia.
  - apply Z.pow_le_mono_r; lia.
Qed.

Lemma existsb_snoc_mono {A : Type} (f : A -> bool) (l : list A) (x : A) (k : Z) :
  (0 <= k)%Z ->
  ((if existsb f l then k else 0) <= (if existsb f (l ++ [x]) then k else 0))%Z.
Proof.
  intro Hk. rewrite existsb_app.
  destruct (existsb f l); simpl; [ lia | ].
  destruct (f x); simpl; lia.
Qed.

Lemma pool_size_snoc_mono (password : str) (c : char) :
  (pool_size password <= pool_size (password ++ [c]))%Z.
Proof.
  rewrite !pool_size_sum.
  pose proof (existsb_snoc_mono isupper password c (k := 26)).
  pose proof (existsb_snoc_mono islower password c (k := 26)).
  pose proof (existsb_snoc_mono isdigit password c (k := 10)).
  pose proof (existsb_snoc_mono (contains punctuation) password c (k := 32)).
  lia.
Qed.

Lemma score_exec_nonneg (password : str) :
  (0 <= fst (calculate_strength_exec password))%Z.
Proof.
  unfold calculate_strength_exec.
  destruct password as [|c rest]; [ simpl; lia | ].
  cbv zeta.
  repeat match goal with
         | |- context [if ?b then _ else _] => destruct b
         end; simpl; lia.
Qed.

(** ** The claims about [calculate_strength] *)

(** C2, as the code has it.  For a non-empty password the pool size is the
    sum of 26 when some character satisfies [str.isupper], 26 when some
    character satisfies [str.islower], 10 when some character satisfies
    [str.isdigit] and 32 when some character is in [string.punctuation];
    these tests are those of the Unicode database, and on a password of
    ASCII characters they are exactly: an uppercase Latin letter, a
    lowercase Latin letter, a decimal digit, a symbol.  The entropy is
    [len(password) * log2(pool_size)], and a password of length 20 with at
    least one character of each of the four classes has pool size 94 and
    scores 4, "Very Strong". *)
Theorem pool_size_scans_unicode_classes (password : str) :
  password <> [] ->
  pool_size password
  = ((if existsb isupper password then 26 else 0)
     + (if existsb islower password then 26 else 0)
     + (if existsb isdigit password then 10 else 0)
     + (if existsb (contains punctuation) password then 32 else 0))%Z
  /\ (Forall (fun c => (c < 128)%N) password ->
      pool_size password = Spec.pool_size password)
  /\ (pool_size password <> 0%Z ->
      entropy password
      = (INR (length password) * (ln (IZR (pool_size password)) / ln 2))%R)
  /\ (length password = 20%nat ->
      existsb Spec.is_upper_latin password = true ->
      existsb Spec.is_lower_latin password = true ->
      existsb Spec.is_decimal_digit password = true ->
      existsb Spec.is_symbol password = true ->
      pool_size password = 94%Z
      /\ calculate_strength password = (4%Z, "Very Strong"%string)).
Proof.
  intros _. split; [ apply pool_size_sum | ].
  split; [ apply pool_size_ascii | ].
  split; [ reflexivity | ].
  intros Hlen Hu Hl Hd Hs.
  pose proof (pool_size_four_classes password Hu Hl Hd Hs) as Hpool.
  split; [ exact Hpool | apply strength_of_full_pool; assumption ].
Qed.

Lemma pool_size_scans_unicode_classes_witness :
  pool_size (lit "Tr0ub4dor&3-Horse:Zx") = 94%Z
  /\ calculate_strength (lit "Tr0ub4dor&3-Horse:Zx") = (4%Z, "Very Strong"%string).
Proof.
  assert (Hne : lit "Tr0ub4dor&3-Horse:Zx" <> [])
    by (vm_compute; discriminate).
  destruct (pool_size_scans_unicode_classes Hne) as (_ & _ & _ & Hfull).
  apply Hfull; vm_compute; reflexivity.
Defined.

(** C2 as stated fails: the one-character password U+03A3 (Greek capital
    sigma) holds no uppercase Latin letter, no lowercase Latin letter, no
    decimal digit and no symbol, and its pool size is 26. *)
Lemma pool_size_greek_capital_sigma :
  [0x3A3%N] <> []
  /\ existsb Spec.is_upper_latin [0x3A3%N] = false
  /\ Spec.pool_size [0x3A3%N] = 0%Z
  /\ pool_size [0x3A3%N] = 26%Z
  /\ ~ (forall password : str,
           password <> [] -> pool_size password = Spec.pool_size password).
Proof.
  split; [ discriminate | ].
  split; [ reflexivity | ].
  split; [ reflexivity | ].
  split; [ vm_compute; reflexivity | ].
  intro Hall. specialize (Hall [0x3A3%N] ltac:(discriminate)).
  vm_compute in Hall. discriminate Hall.
Qed.

(** C3. For a non-empty password with a nonzero pool size the result is read
    off the entropy by half-open intervals with inclusive lower bounds:
    below 28 (0, "Weak"); from 28 and below 36 (1, "Fair"); from 36 and
    below 60 (2, "Good"); from 60 and below 128 (3, "Strong"); from 128
    (4, "Very Strong").  An entropy equal to 28, 36, 60 or 128 gets the
    higher score. *)
Theorem strength_thresholds (password : str) :
  password <> [] ->
  pool_size password <> 0%Z ->
  ((entropy password < 28)%R ->
   calculate_strength password = (0%Z, "Weak"%string))
  /\ ((28 <= entropy password < 36)%R ->
      calculate_strength password = (1%Z, "Fair"%string))
  /\ ((36 <= entropy password < 60)%R ->
      calculate_strength password = (2%Z, "Good"%string))
  /\ ((60 <= entropy password < 128)%R ->
      calculate_strength password = (3%Z, "Strong"%string))
  /\ ((128 <= entropy password)%R ->
      calculate_strength password = (4%Z, "Very Strong"%string))
  /\ (entropy password = 28%R ->
      calculate_strength password = (1%Z, "Fair"%string))
  /\ (entropy password = 36%R ->
      calculate_strength password = (2%Z, "Good"%string))
  /\ (entropy password = 60%R ->
      calculate_strength password = (3%Z, "Strong"%string))
  /\ (entropy password = 128%R ->
      calculate_strength password = (4%Z, "Very Strong"%string)).
Proof.
  intros Hne Hpool.
  destruct password as [|c rest]; [ congruence | ].
  unfold calculate_strength, entropy.
  apply Z.eqb_neq in Hpool. rewrite Hpool. cbv zeta.
  set (e := (INR (length (c :: rest)) * log2 (IZR (pool_size (c :: rest))))%R).
  destruct (Rlt_dec e 28); [ repeat split; intros; (reflexivity || lra) | ].
  destruct (Rlt_dec e 36); [ repeat split; intros; (reflexivity || lra) | ].
  destruct (Rlt_dec e 60); [ repeat split; intros; (reflexivity || lra) | ].
  destruct (Rlt_dec e 128); repeat split; intros; (reflexivity || lra).
Qed.

Lemma strength_thresholds_witness :
  entropy (lit "!!!!!!!!!!!!") = 60%R
  /\ calculate_strength (lit "!!!!!!!!!!!!") = (3%Z, "Strong"%string).
Proof.
  assert (Hne : lit "!!!!!!!!!!!!" <> []) by (vm_compute; discriminate).
  assert (Hpool : pool_size (lit "!!!!!!!!!!!!") = 32%Z)
    by (vm_compute; reflexivity).
  assert (Hnz : pool_size (lit "!!!!!!!!!!!!") <> 0%Z)
    by (rewrite Hpool; discriminate).
  assert (Hent : entropy (lit "!!!!!!!!!!!!") = 60%R).
  { unfold entropy. rewrite Hpool, log2_32.
    replace (length (lit "!!!!!!!!!!!!")) with 12%nat by reflexivity.
    simpl INR. lra. }
  split; [ exact Hent | ].
  destruct (strength_thresholds Hne Hnz) as (_ & _ & _ & _ & _ & _ & _ & Hsixty & _).
  apply Hsixty. exact Hent.
Defined.

(** C4, as the code has it.  A character on which none of [str.isupper],
    [str.islower], [str.isdigit] and membership in [string.punctuation]
    holds contributes to no pool: removing it leaves the pool size
    unchanged.  A non-empty password made of such characters only has pool
    size 0 and gets (0, "Weak").  Among the ASCII characters these are
    exactly the ones outside the four classes; the space and the ideograph
    U+4E2D are two of them. *)
Theorem unclassified_characters_weak :
  (forall (before after : str) (c : char),
      unclassified c = true ->
      pool_size (before ++ c :: after) = pool_size (before ++ after))
  /\ (forall password : str,
         password <> [] ->
         Forall (fun c => unclassified c = true) password ->
         pool_size password = 0%Z
         /\ calculate_strength password = (0%Z, "Weak"%string))
  /\ (forall c : char,
         (c < 128)%N -> unclassified c = negb (Spec.recognized c))
  /\ unclassified 0x20%N = true
  /\ unclassified 0x4E2D%N = true.
Proof.
  split.
  { intros before after c Hc.
    apply unclassified_tests in Hc as (Hu & Hl & Hd & Hs).
    rewrite !pool_size_sum, !existsb_skip by assumption. reflexivity. }
  split.
  { intros password Hne Hall.
    pose proof (pool_size_unclassified Hall) as Hpool.
    split; [ exact Hpool | ].
    unfold calculate_strength.
    destruct password as [|c rest]; [ congruence | ].
    rewrite Hpool. reflexivity. }
  split; [ exact unclassified_ascii | ].
  split; vm_compute; reflexivity.
Qed.

Lemma unclassified_characters_weak_witness :
  pool_size [0x20%N; 0x4E2D%N; 0x9%N] = 0%Z
  /\ calculate_strength [0x20%N; 0x4E2D%N; 0x9%N] = (0%Z, "Weak"%string).
Proof.
  destruct unclassified_characters_weak as (_ & Hweak & _).
  apply Hweak.
  - discriminate.
  - repeat constructor.
Defined.

(** C4 as stated fails: six times U+03A3 is a non-empty password of
    characters outside the four classes of the specification, and it gets
    (1, "Fair"), with pool size 26. *)
Lemma strength_six_greek_capitals :
  Forall (fun c => Spec.recognized c = false) (repeat 0x3A3%N 6)
  /\ pool_size (repeat 0x3A3%N 6) = 26%Z
  /\ calculate_strength (repeat 0x3A3%N 6) = (1%Z, "Fair"%string)
  /\ ~ (forall password : str,
           password <> [] ->
           Forall (fun c => Spec.recognized c = false) password ->
           calculate_strength password = (0%Z, "Weak"%string)).
Proof.
  assert (Hout : Forall (fun c => Spec.recognized c = false) (repeat 0x3A3%N 6))
    by (repeat constructor).
  assert (Hfair : calculate_strength (repeat 0x3A3%N 6) = (1%Z, "Fair"%string))
    by (rewrite calculate_strength_exec_correct; vm_compute; reflexivity).
  split; [ exact Hout | ].
  split; [ vm_compute; reflexivity | ].
  split; [ exact Hfair | ].
  intro Hall. specialize (Hall (repeat 0x3A3%N 6) ltac:(discriminate) Hout).
  rewrite Hfair in Hall. discriminate Hall.
Qed.

(** C5. The empty password gets exactly (0, "Too Short"), and no other
    password gets the label "Too Short": a non-empty password never gets
    (0, "Too Short"), while one of unclassified characters gets
    (0, "Weak"). *)
Theorem too_short_only_when_empty :
  calculate_strength [] = (0%Z, "Too Short"%string)
  /\ (forall password : str,
         snd (calculate_strength password) = "Too Short"%string ->
         password = [])
  /\ (forall password : str,
         password <> [] ->
         calculate_strength password <> (0%Z, "Too Short"%string))
  /\ calculate_strength [0x20%N] = (0%Z, "Weak"%string).
Proof.
  assert (Honly : forall password : str,
             snd (calculate_strength password) = "Too Short"%string ->
             password = []).
  { intros password. rewrite calculate_strength_exec_correct.
    destruct password as [|c rest]; [ reflexivity | ].
    unfold calculate_strength_exec. cbv zeta.
    repeat match goal with
           | |- context [if ?b then _ else _] => destruct b
           end; simpl; discriminate. }
  split; [ reflexivity | ].
  split; [ exact Honly | ].
  split.
  - intros password Hne Heq. apply Hne, Honly. rewrite Heq. reflexivity.
  - rewrite calculate_strength_exec_correct. vm_compute. reflexivity.
Qed.

Lemma too_short_only_when_empty_witness :
  calculate_strength (lit "a") <> (0%Z, "Too Short"%string).
Proof.
  destruct too_short_only_when_empty as (_ & _ & Hdistinct & _).
  apply Hdistinct. vm_compute. discriminate.
Defined.

(** C10. Appending a character never lowers the score: for every password
    [p] and character [c], the score of [p + c] is at least the score of
    [p]. *)
Theorem score_monotone_under_extension (password : str) (c : char) :
  (fst (calculate_strength password)
   <= fst (calculate_strength (password ++ [c])))%Z.
Proof.
  rewrite !calculate_strength_exec_correct.
  destruct password as [|c0 rest].
  - apply score_exec_nonneg.
  - pose proof (pool_size_snoc_mono (c0 :: rest) c) as Hpool.
    pose proof (pool_size_nonneg (c0 :: rest)) as Hnonneg.
    assert (Hlen : (length (c0 :: rest) <= length ((c0 :: rest) ++ [c]))%nat)
      by (rewrite length_app; lia).
    change ((c0 :: rest) ++ [c]) with (c0 :: (rest ++ [c])) in *.
    unfold calculate_strength_exec. cbv zeta.
    set (p := c0 :: rest) in *. set (q := c0 :: rest ++ [c]) in *.
    destruct (pool_size p =? 0)%Z eqn:Hzero.
    + change (fst (0%Z, "Weak"%string)) with 0%Z.
      destruct (pool_size q =? 0)%Z; [ simpl; lia | ].
      repeat match goal with
             | |- context [if ?b then _ else _] => destruct b
             end; simpl; lia.
    + apply Z.eqb_neq in Hzero.
      assert (Hq : (pool_size q =? 0)%Z = false) by (apply Z.eqb_neq; lia).
      rewrite Hq.
      assert (Hanti : forall bits : Z,
                 entropy_below (length q) (pool_size q) bits = true ->
                 entropy_below (length p) (pool_size p) bits = true)
        by (intro bits; apply entropy_below_antitone; lia).
      pose proof (Hanti 28%Z) as H28. pose proof (Hanti 36%Z) as H36.
      pose proof (Hanti 60%Z) as H60. pose proof (Hanti 128%Z) as H128.
      clear Hanti.
      destruct (entropy_below (length q) (pool_size q) 28);
        destruct (entropy_below (length q) (pool_size q) 36);
        destruct (entropy_below (length q) (pool_size q) 60);
        destruct (entropy_below (length q) (pool_size q) 128);
        try rewrite (H28 eq_refl); try rewrite (H36 eq_refl);
        try rewrite (H60 eq_refl); try rewrite (H128 eq_refl);
        repeat match goal with
               | |- context [if ?b then _ else _] => destruct b
               end; simpl; lia.
Qed.

(** ** The alphabet holds no character twice *)

(** The four character sets are duplicate-free and pairwise disjoint, so an
    index drawn below the alphabet's length names one character and every
    character has one index. *)
Lemma alphabet_NoDup (use_upper use_lower use_numbers use_symbols : bool) :
  NoDup (alphabet use_upper use_lower use_numbers use_symbols).
Proof.
  assert (Hfix : nodup N.eq_dec (alphabet use_upper use_lower use_numbers use_symbols)
                 = alphabet use_upper use_lower use_numbers use_symbols)
    by (destruct use_upper, use_lower, use_numbers, use_symbols;
        vm_compute; reflexivity).
  rewrite <- Hfix. apply NoDup_nodup.
Qed.

(** * Further properties of the code *)

(** ** What [calculate_strength] can return *)

Lemma calculate_strength_exec_cases (password : str) :
  In (calculate_strength_exec password)
     [(0%Z, "Too Short"%string); (0%Z, "Weak"%string); (1%Z, "Fair"%string);
      (2%Z, "Good"%string); (3%Z, "Strong"%string);
      (4%Z, "Very Strong"%string)].
Proof.
  unfold calculate_strength_exec.
  destruct password as [|c rest]; [ simpl; tauto | ].
  cbv zeta.
  repeat match goal with
         | |- context [if ?b then _ else _] => destruct b
         end; simpl; tauto.
Qed.

(** X1. Whatever the password, [calculate_strength] returns one of six
    pairs, (0, "Too Short"), (0, "Weak"), (1, "Fair"), (2, "Good"),
    (3, "Strong"), (4, "Very Strong"); the score lies between 0 and 4 and a
    score other than 0 determines the label. *)
Theorem calculate_strength_results (password : str) :
  In (calculate_strength password)
     [(0%Z, "Too Short"%string); (0%Z, "Weak"%string); (1%Z, "Fair"%string);
      (2%Z, "Good"%string); (3%Z, "Strong"%string);
      (4%Z, "Very Strong"%string)]
  /\ (0 <= fst (calculate_strength password) <= 4)%Z.
Proof.
  rewrite calculate_strength_exec_correct.
  pose proof (calculate_strength_exec_cases password) as Hin.
  split; [ exact Hin | ].
  simpl in Hin.
  repeat (destruct Hin as [<- | Hin]; [ simpl; lia | ]). contradiction.
Qed.

(** ** The order of the characters does not matter *)

Lemma existsb_Permutation {A : Type} (f : A -> bool) (l l' : list A) :
  Permutation l l' -> existsb f l = existsb f l'.
Proof.
  intro Hperm. induction Hperm as [|x l l' _ IH|x y l|l l' l'' _ IH1 _ IH2]; simpl.
  - reflexivity.
  - rewrite IH. reflexivity.
  - destruct (f x), (f y); reflexivity.
  - congruence.
Qed.

Lemma calculate_strength_congr (p q : str) :
  length p = length q -> pool_size p = pool_size q ->
  calculate_strength p = calculate_strength q.
Proof.
  intros Hlen Hpool. rewrite !calculate_strength_exec_correct.
  unfold calculate_strength_exec.
  destruct p as [|a p'], q as [|b q']; try discriminate Hlen; [ reflexivity | ].
  rewrite Hpool, Hlen. reflexivity.
Qed.

(** X2. The result of [calculate_strength] depends on the characters of the
    password and not on their order: two passwords that are permutations of
    each other get the same score and label. *)
Theorem calculate_strength_Permutation (p q : str) :
  Permutation p q ->
  calculate_strength p = calculate_strength q.
Proof.
  intro Hperm. apply calculate_strength_congr.
  - apply Permutation_length, Hperm.
  - rewrite !pool_size_sum.
    rewrite (existsb_Permutation isupper Hperm),
      (existsb_Permutation islower Hperm),
      (existsb_Permutation isdigit Hperm),
      (existsb_Permutation (contains punctuation) Hperm).
    reflexivity.
Qed.

Lemma calculate_strength_Permutation_witness :
  calculate_strength (lit "ab1") = calculate_strength (lit "1ba").
Proof.
  apply calculate_strength_Permutation. vm_compute.
  apply perm_trans with [97%N; 49%N; 98%N].
  - apply perm_skip, perm_swap.
  - apply perm_trans with [49%N; 97%N; 98%N].
    + apply perm_swap.
    + apply perm_skip, perm_swap.
Defined.

(** ** Length and score *)

Lemma pool_size_le_94 (password : str) : (pool_size password <= 94)%Z.
Proof.
  pose proof (pool_size_values password) as Hin. simpl in Hin.
  repeat (destruct Hin as [Hin | Hin]; [ lia | ]). contradiction.
Qed.

Lemma pool_size_ge_10 (password : str) :
  pool_size password <> 0%Z -> (10 <= pool_size password)%Z.
Proof.
  intro Hnz. pose proof (pool_size_values password) as Hin. simpl in Hin.
  repeat (destruct Hin as [Hin | Hin]; [ lia | ]). contradiction.
Qed.

Lemma entropy_below_short (len bound : nat) (pool bits : Z) :
  (0 < pool <= 94)%Z -> (len <= bound)%nat ->
  entropy_below bound 94 bits = true -> entropy_below len pool bits = true.
Proof.
  intros Hpool Hlen. apply entropy_below_antitone; lia.
Qed.

Lemma entropy_below_long (len bound : nat) (pool bits : Z) :
  (10 <= pool)%Z -> (bound <= len)%nat ->
  entropy_below bound 10 bits = false -> entropy_below len pool bits = false.
Proof.
  intros Hpool Hlen Hbound.
  destruct (entropy_below len pool bits) eqn:Hbelow; [ | reflexivity ].
  rewrite (entropy_below_antitone (len := bound) (len' := len) (pool := 10%Z)
             (pool' := pool) bits) in Hbound; [ discriminate | lia | lia | exact Hbelow ].
Qed.

(** X3. A score needs a minimal length, whatever the characters: a password
    of at most 4 characters scores 0, and a score of at least 1, 2, 3 or of
    4 needs at least 5, 6, 10 or 20 characters. *)
Theorem score_needs_length (password : str) :
  ((length password <= 4)%nat -> fst (calculate_strength password) = 0%Z)
  /\ ((1 <= fst (calculate_strength password))%Z -> (5 <= length password)%nat)
  /\ ((2 <= fst (calculate_strength password))%Z -> (6 <= length password)%nat)
  /\ ((3 <= fst (calculate_strength password))%Z -> (10 <= length password)%nat)
  /\ (fst (calculate_strength password) = 4%Z -> (20 <= length password)%nat).
Proof.
  rewrite calculate_strength_exec_correct.
  unfold calculate_strength_exec.
  destruct password as [|c rest]; [ simpl; repeat split; lia | ].
  set (p := c :: rest). cbv zeta.
  destruct (pool_size p =? 0)%Z eqn:Hzero; [ simpl; repeat split; lia | ].
  apply Z.eqb_neq in Hzero.
  assert (Hpool : (0 < pool_size p <= 94)%Z)
    by (pose proof (pool_size_nonneg p); pose proof (pool_size_le_94 p); lia).
  pose proof (fun b H => @entropy_below_short (length p) b (pool_size p) 28 Hpool H)
    as H28.
  pose proof (fun b H => @entropy_below_short (length p) b (pool_size p) 36 Hpool H)
    as H36.
  pose proof (fun b H => @entropy_below_short (length p) b (pool_size p) 60 Hpool H)
    as H60.
  pose proof (fun b H => @entropy_below_short (length p) b (pool_size p) 128 Hpool H)
    as H128.
  assert (B28 : (length p <= 4)%nat ->
                entropy_below (length p) (pool_size p) 28 = true)
    by (intro Hl; apply (H28 4%nat Hl); vm_compute; reflexivity).
  assert (B36 : (length p <= 5)%nat ->
                entropy_below (length p) (pool_size p) 36 = true)
    by (intro Hl; apply (H36 5%nat Hl); vm_compute; reflexivity).
  assert (B60 : (length p <= 9)%nat ->
                entropy_below (length p) (pool_size p) 60 = true)
    by (intro Hl; apply (H60 9%nat Hl); vm_compute; reflexivity).
  assert (B128 : (length p <= 19)%nat ->
                 entropy_below (length p) (pool_size p) 128 = true)
    by (intro Hl; apply (H128 19%nat Hl); vm_compute; reflexivity).
  clear H28 H36 H60 H128. clearbody p.
  destruct (entropy_below (length p) (pool_size p) 28);
    destruct (entropy_below (length p) (pool_size p) 36);
    destruct (entropy_below (length p) (pool_size p) 60);
    destruct (entropy_below (length p) (pool_size p) 128);
    cbn [fst]; repeat split; intros; try lia;
    repeat match goal with
           | B : (_ <= ?n)%nat -> false = true |- _ =>
               assert (n < length p)%nat
                 by (destruct (Nat.le_gt_cases (length p) n) as [Hle | Hgt];
                     [ discriminate (B Hle) | exact Hgt ]);
               clear B
           end; lia.
Qed.

Lemma score_needs_length_witness :
  fst (calculate_strength (lit "aB3$")) = 0%Z.
Proof.
  destruct (score_needs_length (lit "aB3$")) as (Hshort & _).
  apply Hshort. vm_compute. lia.
Defined.

(** X4. Length is enough once some character is recognized: with a nonzero
    pool size, 9 characters score at least 1, 11 at least 2, 19 at least 3,
    and 39 characters get (4, "Very Strong"). *)
Theorem length_gives_score (password : str) :
  pool_size password <> 0%Z ->
  ((9 <= length password)%nat -> (1 <= fst (calculate_strength password))%Z)
  /\ ((11 <= length password)%nat -> (2 <= fst (calculate_strength password))%Z)
  /\ ((19 <= length password)%nat -> (3 <= fst (calculate_strength password))%Z)
  /\ ((39 <= length password)%nat ->
      calculate_strength password = (4%Z, "Very Strong"%string)).
Proof.
  intro Hnz. rewrite calculate_strength_exec_correct.
  unfold calculate_strength_exec.
  destruct password as [|c rest]; [ exfalso; apply Hnz; reflexivity | ].
  set (p := c :: rest) in *. cbv zeta.
  pose proof (pool_size_ge_10 p Hnz) as Hpool.
  apply Z.eqb_neq in Hnz. rewrite Hnz.
  assert (A28 : (9 <= length p)%nat ->
                entropy_below (length p) (pool_size p) 28 = false)
    by (intro Hl; apply (@entropy_below_long (length p) 9%nat (pool_size p) 28%Z Hpool Hl);
        vm_compute; reflexivity).
  assert (A36 : (11 <= length p)%nat ->
                entropy_below (length p) (pool_size p) 36 = false)
    by (intro Hl; apply (@entropy_below_long (length p) 11%nat (pool_size p) 36%Z Hpool Hl);
        vm_compute; reflexivity).
  assert (A60 : (19 <= length p)%nat ->
                entropy_below (length p) (pool_size p) 60 = false)
    by (intro Hl; apply (@entropy_below_long (length p) 19%nat (pool_size p) 60%Z Hpool Hl);
        vm_compute; reflexivity).
  assert (A128 : (39 <= length p)%nat ->
                 entropy_below (length p) (pool_size p) 128 = false)
    by (intro Hl; apply (@entropy_below_long (length p) 39%nat (pool_size p) 128%Z Hpool Hl);
        vm_compute; reflexivity).
  repeat split; intro Hl.
  - rewrite (A28 Hl).
    repeat match goal with
           | |- context [if ?b then _ else _] => destruct b
           end; simpl; lia.
  - rewrite (A28 ltac:(lia)), (A36 Hl).
    repeat match goal with
           | |- context [if ?b then _ else _] => destruct b
           end; simpl; lia.
  - rewrite (A28 ltac:(lia)), (A36 ltac:(lia)), (A60 Hl).
    repeat match goal with
           | |- context [if ?b then _ else _] => destruct b
           end; simpl; lia.
  - rewrite (A28 ltac:(lia)), (A36 ltac:(lia)), (A60 ltac:(lia)), (A128 Hl).
    reflexivity.
Qed.

Lemma length_gives_score_witness :
  calculate_strength (repeat 0x37%N 39) = (4%Z, "Very Strong"%string).
Proof.
  assert (Hnz : pool_size (repeat 0x37%N 39) <> 0%Z)
    by (vm_compute; discriminate).
  destruct (@length_gives_score _ Hnz) as (_ & _ & _ & Hlong).
  apply Hlong. vm_compute. lia.
Defined.

(** ** The generator's alphabet under the estimator's tests *)

Lemma class_tests (c : char) :
  (In c ascii_uppercase ->
   (isupper c, islower c, isdigit c, contains punctuation c)
   = (true, false, false, false))
  /\ (In c ascii_lowercase ->
      (isupper c, islower c, isdigit c, contains punctuation c)
      = (false, true, false, false))
  /\ (In c digits ->
      (isupper c, islower c, isdigit c, contains punctuation c)
      = (false, false, true, false))
  /\ (In c punctuation ->
      (isupper c, islower c, isdigit c, contains punctuation c)
      = (false, false, false, true)).
Proof.
  repeat split; intro Hin; vm_compute in Hin;
    repeat (destruct Hin as [<- | Hin]; [ vm_compute; reflexivity | ]);
    contradiction.
Qed.

Lemma alphabet_member (use_upper use_lower use_numbers use_symbols : bool) (c : char) :
  In c (alphabet use_upper use_lower use_numbers use_symbols) ->
  (use_upper = true /\ In c ascii_uppercase)
  \/ (use_lower = true /\ In c ascii_lowercase)
  \/ (use_numbers = true /\ In c digits)
  \/ (use_symbols = true /\ In c punctuation).
Proof.
  rewrite alphabet_concat, !in_app_iff.
  destruct use_upper, use_lower, use_numbers, use_symbols; simpl In; tauto.
Qed.

Lemma tests_within_alphabet
    (use_upper use_lower use_numbers use_symbols : bool) (pw : str) :
  Forall (fun c => In c (alphabet use_upper use_lower use_numbers use_symbols)) pw ->
  (existsb isupper pw = true -> use_upper = true)
  /\ (existsb islower pw = true -> use_lower = true)
  /\ (existsb isdigit pw = true -> use_numbers = true)
  /\ (existsb (contains punctuation) pw = true -> use_symbols = true).
Proof.
  intro Hall. rewrite Forall_forall in Hall.
  repeat split; intro Hex; apply existsb_exists in Hex as (c & Hin & Hc);
    destruct (class_tests c) as (Hu & Hl & Hd & Hs);
    destruct (alphabet_member _ _ _ _ c (Hall c Hin))
      as [[Hf Hc'] | [[Hf Hc'] | [[Hf Hc'] | [Hf Hc']]]];
    try exact Hf;
    first [ apply Hu in Hc' | apply Hl in Hc' | apply Hd in Hc' | apply Hs in Hc' ];
    congruence.
Qed.

Lemma alphabet_length (use_upper use_lower use_numbers use_symbols : bool) :
  Z.of_nat (length (alphabet use_upper use_lower use_numbers use_symbols))
  = ((if use_upper then 26 else 0) + (if use_lower then 26 else 0)
     + (if use_numbers then 10 else 0) + (if use_symbols then 32 else 0))%Z.
Proof.
  destruct use_upper, use_lower, use_numbers, use_symbols; reflexivity.
Qed.

Lemma pool_size_within_alphabet
    (use_upper use_lower use_numbers use_symbols : bool) (pw : str) :
  Forall (fun c => In c (alphabet use_upper use_lower use_numbers use_symbols)) pw ->
  (pool_size pw
   <= Z.of_nat (length (alphabet use_upper use_lower use_numbers use_symbols)))%Z.
Proof.
  intro Hall. rewrite alphabet_length, pool_size_sum.
  destruct (tests_within_alphabet _ _ _ _ Hall) as (Hu & Hl & Hd & Hs).
  destruct (existsb isupper pw);
    [ rewrite (Hu eq_refl) | ];
    (destruct (existsb islower pw); [ rewrite (Hl eq_refl) | ]);
    (destruct (existsb isdigit pw); [ rewrite (Hd eq_refl) | ]);
    (destruct (existsb (contains punctuation) pw); [ rewrite (Hs eq_refl) | ]);
    repeat match goal with
           | |- context [if ?b then _ else _] => destruct b
           end; lia.
Qed.

Lemma pool_size_of_alphabet_nonempty
    (use_upper use_lower use_numbers use_symbols : bool) (pw : str) :
  pw <> [] ->
  Forall (fun c => In c (alphabet use_upper use_lower use_numbers use_symbols)) pw ->
  pool_size pw <> 0%Z.
Proof.
  intros Hne Hall. destruct pw as [|c rest]; [ congruence | ].
  inversion Hall as [|? ? Hc _]; subst.
  destruct (class_tests c) as (Hu & Hl & Hd & Hs).
  rewrite pool_size_sum. simpl existsb.
  destruct (alphabet_member _ _ _ _ c Hc)
    as [[_ Hc'] | [[_ Hc'] | [[_ Hc'] | [_ Hc']]]];
    first [ apply Hu in Hc' | apply Hl in Hc' | apply Hd in Hc' | apply Hs in Hc' ];
    injection Hc' as -> -> -> ->; simpl orb; cbv iota;
    repeat match goal with
           | |- context [if ?b then _ else _] => destruct b
           end; lia.
Qed.

Lemma generate_ok_inv
    (S : Type) (src : SystemRandom S) (L : Z)
    (use_upper use_lower use_numbers use_symbols : bool) (s s' : S) (pw : str) :
  generate L use_upper use_lower use_numbers use_symbols s = Ok (pw, s') ->
  length pw
  = (if any [use_upper; use_lower; use_numbers; use_symbols]
     then Z.to_nat L else 0%nat)
  /\ Forall (fun c => In c (alphabet use_upper use_lower use_numbers use_symbols)) pw.
Proof.
  unfold generate.
  destruct (any [use_upper; use_lower; use_numbers; use_symbols]) eqn:Hany;
    cbv beta iota delta [negb]; intro Hrun.
  - pose proof (join_choices_spec (Z.to_nat L) (alphabet_nonempty _ _ _ _ Hany) s)
      as Hjoin.
    destruct (first_failure _ _ s) as [e|].
    + rewrite Hjoin in Hrun. discriminate Hrun.
    + destruct Hjoin as (pw0 & s0 & Hrun0 & Hlen & Hall).
      rewrite Hrun0 in Hrun. injection Hrun as <- _. split; assumption.
  - injection Hrun as <- _. split; [ reflexivity | constructor ].
Qed.

Lemma log2_le_mono (x y : R) : (0 < x)%R -> (x <= y)%R -> (log2 x <= log2 y)%R.
Proof.
  intros Hx Hxy. unfold log2. pose proof ln_2_pos as H2.
  apply Rmult_le_compat_r; [ left; apply Rinv_0_lt_compat; exact H2 | ].
  destruct Hxy as [Hlt | ->]; [ left; apply ln_increasing; assumption | right; reflexivity ].
Qed.

(** X5. Whatever the flags, the alphabet of [generate] holds no character
    twice, has 26 characters for the uppercase flag, 26 for the lowercase
    flag, 10 for the digits and 32 for the symbols, summed over the flags
    that are set (the numbers [calculate_strength] adds to its pool), and
    holds printable ASCII characters only, U+0021 to U+007E. *)
Theorem alphabet_size_and_distinct
    (use_upper use_lower use_numbers use_symbols : bool) :
  NoDup (alphabet use_upper use_lower use_numbers use_symbols)
  /\ Z.of_nat (length (alphabet use_upper use_lower use_numbers use_symbols))
     = ((if use_upper then 26 else 0) + (if use_lower then 26 else 0)
        + (if use_numbers then 10 else 0) + (if use_symbols then 32 else 0))%Z
  /\ Forall (fun c => (0x21 <= c <= 0x7E)%N)
            (alphabet use_upper use_lower use_numbers use_symbols).
Proof.
  split; [ apply alphabet_NoDup | ].
  split; [ apply alphabet_length | ].
  apply Forall_forall. intros c Hin.
  apply alphabet_member in Hin.
  destruct Hin as [[_ Hin] | [[_ Hin] | [[_ Hin] | [_ Hin]]]];
    vm_compute in Hin;
    repeat (destruct Hin as [<- | Hin]; [ lia | ]); contradiction.
Qed.

(** X6. The estimator never credits a generated password with more than
    its alphabet: for a password returned by [generate], the pool size is at
    most the size of the alphabet it was drawn from and the entropy at most
    [len * log2 (size of the alphabet)]; and when a class is enabled and the
    length is at least 1, the pool size is at least 10 and the label is not
    "Too Short". *)
Theorem generated_password_strength
    (S : Type) (src : SystemRandom S) (L : Z)
    (use_upper use_lower use_numbers use_symbols : bool) (s s' : S) (pw : str) :
  generate L use_upper use_lower use_numbers use_symbols s = Ok (pw, s') ->
  (pool_size pw
   <= Z.of_nat (length (alphabet use_upper use_lower use_numbers use_symbols)))%Z
  /\ (entropy pw
      <= INR (length pw)
         * log2 (INR (length (alphabet use_upper use_lower use_numbers use_symbols))))%R
  /\ (any [use_upper; use_lower; use_numbers; use_symbols] = true ->
      (1 <= L)%Z ->
      (10 <= pool_size pw)%Z
      /\ snd (calculate_strength pw) <> "Too Short"%string).
Proof.
  intro Hrun. apply generate_ok_inv in Hrun as [Hlen Hall].
  pose proof (pool_size_within_alphabet _ _ _ _ Hall) as Hle.
  split; [ exact Hle | ].
  split.
  - unfold entropy. destruct pw as [|c rest].
    + simpl INR. rewrite !Rmult_0_l. apply Rle_refl.
    + assert (Hnz : pool_size (c :: rest) <> 0%Z)
        by (apply (pool_size_of_alphabet_nonempty
                     use_upper use_lower use_numbers use_symbols);
            [ discriminate | exact Hall ]).
      apply pool_size_ge_10 in Hnz.
      apply Rmult_le_compat_l; [ apply pos_INR | ].
      apply log2_le_mono.
      * apply IZR_lt. lia.
      * rewrite INR_IZR_INZ. apply IZR_le. exact Hle.
  - intros Hany HL. rewrite Hany in Hlen.
    assert (Hne : pw <> []) by (destruct pw; [ simpl in Hlen; lia | discriminate ]).
    assert (Hnz : pool_size pw <> 0%Z)
      by (apply (pool_size_of_alphabet_nonempty
                   use_upper use_lower use_numbers use_symbols); assumption).
    split; [ apply pool_size_ge_10; exact Hnz | ].
    rewrite calculate_strength_exec_correct. unfold calculate_strength_exec.
    destruct pw as [|c rest]; [ congruence | ]. cbv zeta.
    repeat match goal with
           | |- context [if ?b then _ else _] => destruct b
           end; simpl; discriminate.
Qed.

Lemma generated_password_strength_witness :
  (pool_size (lit "dkry5") <= 36)%Z
  /\ (10 <= pool_size (lit "dkry5"))%Z.
Proof.
  destruct (@generated_password_strength _ TestSource.counter_source 5%Z
              false true true false 3%N 38%N (lit "dkry5") eq_refl)
    as (Hle & _ & Hpos).
  split; [ exact Hle | ].
  apply Hpos; [ reflexivity | lia ].
Defined.

(** ** One draw per character *)

Section DrawTrace.

Context {S : Type} `{SystemRandom S}.

Lemma join_choices_draws (a : str) (k : nat) :
  a <> [] ->
  forall (s s' : S) (idx : list N),
    draws (N.of_nat (length a)) k s = Ok (idx, s') ->
    join_choices a k s = Ok (map (fun i => nth (N.to_nat i) a 0%N) idx, s')
    /\ length idx = k
    /\ Forall (fun i => (i < N.of_nat (length a))%N) idx.
Proof.
  intro Hne. induction k as [|k IH]; intros s s' idx Hdraws; simpl in Hdraws.
  - injection Hdraws as <- <-. repeat split. constructor.
  - destruct (randbelow (N.of_nat (length a)) s) as [[i s1]|e] eqn:Hdraw;
      [ | discriminate Hdraws ].
    destruct (draws (N.of_nat (length a)) k s1) as [[rest s2]|e] eqn:Hrest;
      [ | discriminate Hdraws ].
    injection Hdraws as <- <-.
    destruct (IH s1 s2 rest Hrest) as (Hjoin & Hlen & Hall).
    assert (Hi : (i < N.of_nat (length a))%N).
    { eapply randbelow_below; [ | exact Hdraw ].
      destruct a; [ congruence | simpl; lia ]. }
    assert (Hchoice : choice a s = Ok (nth (N.to_nat i) a 0%N, s1)).
    { unfold choice, bind. destruct a as [|x a']; [ congruence | ].
      rewrite Hdraw.
      destruct (nth_error (x :: a') (N.to_nat i)) as [c|] eqn:Hnth.
      - unfold ret. do 2 f_equal. symmetry. apply nth_error_nth. exact Hnth.
      - apply nth_error_None in Hnth. lia. }
    simpl. unfold bind at 1. rewrite Hchoice. unfold bind at 1. rewrite Hjoin.
    repeat split; [ congruence | constructor; assumption ].
Qed.

Lemma join_choices_app (a : str) (n m : nat) (s : S) :
  join_choices a (n + m) s
  = (x <- join_choices a n ;; y <- join_choices a m ;; ret (x ++ y))%py s.
Proof.
  revert s. induction n as [|n IH]; intro s; simpl.
  - unfold bind, ret. destruct (join_choices a m s) as [[y s']|e]; reflexivity.
  - unfold bind, ret. destruct (choice a s) as [[c s1]|e]; [ | reflexivity ].
    specialize (IH s1). unfold bind, ret in IH. rewrite IH.
    destruct (join_choices a n s1) as [[x s2]|e]; [ | reflexivity ].
    cbv beta iota.
    destruct (join_choices a m s2) as [[y s3]|e]; reflexivity.
Qed.

End DrawTrace.

(** X7. [generate] makes one draw per character, in order, and nothing
    else: if the [length] draws below the alphabet's size yield the numbers
    [idx] and leave the source in [s'], the password is the alphabet
    indexed by [idx], character by character, and the source is left in
    [s']. *)
Theorem generate_follows_draws
    (S : Type) (src : SystemRandom S) (L : Z)
    (use_upper use_lower use_numbers use_symbols : bool)
    (s s' : S) (idx : list N) :
  any [use_upper; use_lower; use_numbers; use_symbols] = true ->
  draws (N.of_nat (length (alphabet use_upper use_lower use_numbers use_symbols)))
        (Z.to_nat L) s = Ok (idx, s') ->
  generate L use_upper use_lower use_numbers use_symbols s
  = Ok (map (fun i =>
               nth (N.to_nat i)
                   (alphabet use_upper use_lower use_numbers use_symbols) 0%N)
            idx, s')
  /\ length idx = Z.to_nat L
  /\ Forall (fun i =>
               (i < N.of_nat
                      (length (alphabet use_upper use_lower use_numbers use_symbols)))%N)
            idx.
Proof.
  intros Hany Hdraws. unfold generate. rewrite Hany.
  cbv beta iota delta [negb].
  apply join_choices_draws; [ apply alphabet_nonempty; exact Hany | exact Hdraws ].
Qed.

Lemma generate_follows_draws_witness :
  @generate _ TestSource.tape_source 3 false false true false
    [Ok 4%N; Ok 12%N; Ok 9%N; Raise OSError]
  = Ok (lit "429", [Raise OSError]).
Proof.
  apply (@generate_follows_draws _ TestSource.tape_source 3%Z
            false false true false
            [Ok 4%N; Ok 12%N; Ok 9%N; Raise OSError] [Raise OSError]
            [4%N; 2%N; 9%N]).
  - reflexivity.
  - reflexivity.
Defined.

(** X8. Generating [a + b] characters is generating [a] characters and then
    [b] characters from the source as the first run left it, and
    concatenating: the same string, the same final state, the same
    exception. *)
Theorem generate_splits
    (S : Type) (src : SystemRandom S) (a b : Z)
    (use_upper use_lower use_numbers use_symbols : bool) (s : S) :
  (0 <= a)%Z -> (0 <= b)%Z ->
  generate (a + b) use_upper use_lower use_numbers use_symbols s
  = (x <- generate a use_upper use_lower use_numbers use_symbols ;;
     y <- generate b use_upper use_lower use_numbers use_symbols ;;
     ret (x ++ y))%py s.
Proof.
  intros Ha Hb. unfold generate.
  destruct (any [use_upper; use_lower; use_numbers; use_symbols]);
    cbv beta iota delta [negb].
  - rewrite Z2Nat.inj_add by assumption. apply join_choices_app.
  - reflexivity.
Qed.

Lemma generate_splits_witness :
  @generate _ TestSource.counter_source (2 + 3) true false false true 5%N
  = (x <- @generate _ TestSource.counter_source 2 true false false true ;;
     y <- @generate _ TestSource.counter_source 3 true false false true ;;
     ret (x ++ y))%py 5%N.
Proof.
  apply (@generate_splits _ TestSource.counter_source 2%Z 3%Z
            true false false true 5%N); lia.
Defined.

(** ** The strength meter *)

Import PasswordGeneratorApp.

Lemma update_strength_meter_keeps (w : widgets) (password : str) :
  length_slider (_update_strength_meter w password) = length_slider w
  /\ chk_upper (_update_strength_meter w password) = chk_upper w
  /\ chk_lower (_update_strength_meter w password) = chk_lower w
  /\ chk_numbers (_update_strength_meter w password) = chk_numbers w
  /\ chk_symbols (_update_strength_meter w password) = chk_symbols w
  /\ password_display (_update_strength_meter w password) = password_display w.
Proof.
  unfold _update_strength_meter.
  destruct (calculate_strength password) as [score label].
  unfold strength_bar_setValue.
  destruct ((_ <? 0) || (100 <? _))%Z; repeat split; reflexivity.
Qed.

Lemma update_strength_meter_fields (w : widgets) (password : str) :
  strength_bar (_update_strength_meter w password)
  = ((fst (calculate_strength password) + 1) * 20)%Z
  /\ (20 <= strength_bar (_update_strength_meter w password) <= 100)%Z
  /\ strength_label (_update_strength_meter w password)
     = ("Strength: " ++ snd (calculate_strength password))%string
  /\ exists color : string,
       In (fst (calculate_strength password), color) colors
       /\ strength_bar_style (_update_strength_meter w password)
          = (bar_sheet_before ++ color ++ bar_sheet_after)%string
       /\ strength_label_style (_update_strength_meter w password)
          = ("font-size: 12px; font-weight: bold; color: " ++ color ++ ";")%string.
Proof.
  unfold _update_strength_meter.
  pose proof (calculate_strength_exec_cases password) as Hcases.
  rewrite <- calculate_strength_exec_correct in Hcases.
  simpl in Hcases.
  repeat (destruct Hcases as [<- | Hcases];
          [ repeat split; try reflexivity; try (simpl; lia);
            eexists; split; [ | split; reflexivity ]; simpl; tauto | ]).
  contradiction.
Qed.

(** X9. [_update_strength_meter] always moves the bar: the value it sets is
    [(score + 1) * 20], one of 20, 40, 60, 80, 100, inside the range of the
    bar; the colour is the one [colors] holds for the score, never the
    fallback of [get]; the label reads "Strength: " followed by the label of
    [calculate_strength]; the slider, the check boxes and the display are
    left alone. *)
Theorem update_strength_meter_shows_strength (w : widgets) (password : str) :
  strength_bar (_update_strength_meter w password)
  = ((fst (calculate_strength password) + 1) * 20)%Z
  /\ In (strength_bar (_update_strength_meter w password)) [20; 40; 60; 80; 100]%Z
  /\ strength_label (_update_strength_meter w password)
     = ("Strength: " ++ snd (calculate_strength password))%string
  /\ (exists color : string,
         In (fst (calculate_strength password), color) colors
         /\ strength_bar_style (_update_strength_meter w password)
            = (bar_sheet_before ++ color ++ bar_sheet_after)%string
         /\ strength_label_style (_update_strength_meter w password)
            = ("font-size: 12px; font-weight: bold; color: " ++ color ++ ";")%string)
  /\ length_slider (_update_strength_meter w password) = length_slider w
  /\ (chk_upper (_update_strength_meter w password),
      chk_lower (_update_strength_meter w password),
      chk_numbers (_update_strength_meter w password),
      chk_symbols (_update_strength_meter w password))
     = (chk_upper w, chk_lower w, chk_numbers w, chk_symbols w)
  /\ password_display (_update_strength_meter w password) = password_display w.
Proof.
  destruct (update_strength_meter_fields w password) as (Hbar & _ & Hlabel & Hcolor).
  destruct (update_strength_meter_keeps w password)
    as (Hs & Hu & Hl & Hn & Hy & Hd).
  split; [ exact Hbar | ].
  split.
  { rewrite Hbar.
    pose proof (calculate_strength_exec_cases password) as Hcases.
    rewrite <- calculate_strength_exec_correct in Hcases. simpl in Hcases.
    repeat (destruct Hcases as [<- | Hcases]; [ simpl; tauto | ]).
    contradiction. }
  split; [ exact Hlabel | ].
  split; [ exact Hcolor | ].
  split; [ exact Hs | ].
  split; [ congruence | exact Hd ].
Qed.

(** ** The slot [generate_password] *)

Lemma refresh_result (w : widgets) (pwd : str) :
  let w' := _update_strength_meter (password_display_setText pwd w) pwd in
  length_slider w' = length_slider w
  /\ chk_upper w' = chk_upper w
  /\ chk_lower w' = chk_lower w
  /\ chk_numbers w' = chk_numbers w
  /\ chk_symbols w' = chk_symbols w
  /\ password_display w' = pwd
  /\ strength_bar w' = ((fst (calculate_strength pwd) + 1) * 20)%Z
  /\ strength_label w' = ("Strength: " ++ snd (calculate_strength pwd))%string.
Proof.
  intro w'. subst w'.
  destruct (update_strength_meter_keeps (password_display_setText pwd w) pwd)
    as (Hs & Hu & Hl & Hn & Hy & Hd).
  destruct (update_strength_meter_fields (password_display_setText pwd w) pwd)
    as (Hbar & _ & Hlabel & _).
  rewrite Hs, Hu, Hl, Hn, Hy, Hd. repeat split; assumption.
Qed.

Section Reliable.

Context {S : Type} `{SystemRandom S}.

Hypothesis never_raises :
  forall (n : N) (s : S), exists (i : N) (s' : S), randbelow n s = Ok (i, s').

Lemma first_failure_reliable (n : N) (k : nat) (s : S) :
  first_failure n k s = None.
Proof.
  revert s. induction k as [|k IH]; intro s; simpl; [ reflexivity | ].
  destruct (never_raises n s) as (i & s' & ->). apply IH.
Qed.

Lemma generate_reliable (L : Z)
    (use_upper use_lower use_numbers use_symbols : bool) (s : S) :
  exists (pw : str) (s' : S),
    generate L use_upper use_lower use_numbers use_symbols s = Ok (pw, s')
    /\ length pw
       = (if any [use_upper; use_lower; use_numbers; use_symbols]
          then Z.to_nat L else 0%nat)
    /\ Forall (fun c => In c (alphabet use_upper use_lower use_numbers use_symbols)) pw.
Proof.
  unfold generate.
  destruct (any [use_upper; use_lower; use_numbers; use_symbols]) eqn:Hany;
    cbv beta iota delta [negb].
  - pose proof (join_choices_spec (Z.to_nat L) (alphabet_nonempty _ _ _ _ Hany) s)
      as Hjoin.
    rewrite first_failure_reliable in Hjoin.
    destruct Hjoin as (pw & s' & Hrun & Hlen & Hall).
    exists pw, s'. repeat split; assumption.
  - exists [], s. repeat split. constructor.
Qed.

End Reliable.

Section SlotFacts.

Context {S : Type} `{SystemRandom S}.

Lemma generate_password_checked (depth : nat) (w : widgets) (s : S) :
  any [chk_upper w; chk_lower w; chk_numbers w; chk_symbols w] = true ->
  generate_password (Datatypes.S depth) w s
  = match generate (length_slider w) (chk_upper w) (chk_lower w)
            (chk_numbers w) (chk_symbols w) s with
    | Ok (pwd, s') =>
        Ok (Some (_update_strength_meter (password_display_setText pwd w) pwd), s')
    | Raise e => Raise e
    end.
Proof.
  intro Hany. cbn [generate_password]. cbv zeta. rewrite Hany.
  cbv beta iota delta [negb]. unfold bind, ret.
  destruct (generate _ _ _ _ _ s) as [[pwd s']|e]; reflexivity.
Qed.

Lemma generate_password_unchecked (depth : nat) (w : widgets) (s : S) :
  any [chk_upper w; chk_lower w; chk_numbers w; chk_symbols w] = false ->
  generate_password (Datatypes.S (Datatypes.S depth)) w s
  = match
      generate_password (Datatypes.S depth)
        {| length_slider := length_slider w;
           chk_upper := chk_upper w; chk_lower := true;
           chk_numbers := chk_numbers w; chk_symbols := chk_symbols w;
           password_display := password_display w;
           strength_bar := strength_bar w;
           strength_bar_style := strength_bar_style w;
           strength_label := strength_label w;
           strength_label_style := strength_label_style w |} s
    with
    | Ok (Some w1, s1) =>
        match generate (length_slider w) (chk_upper w) true
                (chk_numbers w) (chk_symbols w) s1 with
        | Ok (pwd, s2) =>
            Ok (Some (_update_strength_meter (password_display_setText pwd w1) pwd),
                s2)
        | Raise e => Raise e
        end
    | Ok (None, s1) => Ok (None, s1)
    | Raise e => Raise e
    end.
Proof.
  intro Hnone.
  assert (Hlower : chk_lower w = false).
  { unfold any in Hnone. simpl in Hnone.
    destruct (chk_upper w), (chk_lower w); try discriminate Hnone; reflexivity. }
  remember (Datatypes.S depth) as d eqn:Hd.
  cbn [generate_password]. cbv zeta. rewrite Hnone.
  cbv beta iota delta [negb]. unfold chk_lower_setChecked. rewrite Hlower.
  cbn [Bool.eqb]. unfold bind, ret.
  destruct (generate_password d _ s) as [[[w1|] s1]|e]; reflexivity.
Qed.

End SlotFacts.

Lemma any_false_flags (a b c d : bool) :
  any [a; b; c; d] = false -> a = false /\ b = false /\ c = false /\ d = false.
Proof. destruct a, b, c, d; intro Hany; try discriminate Hany; repeat split. Qed.

Lemma generate_password_outcome
    (S : Type) (src : SystemRandom S) (depth : nat) (w : widgets) (s : S) :
  (forall (n : N) (s0 : S),
      exists (i : N) (s1 : S), randbelow n s0 = Ok (i, s1)) ->
  (2 <= depth)%nat ->
  exists (w' : widgets) (s' : S),
    generate_password depth w s = Ok (Some w', s')
    /\ length_slider w' = length_slider w
    /\ (chk_upper w', chk_numbers w', chk_symbols w')
       = (chk_upper w, chk_numbers w, chk_symbols w)
    /\ chk_lower w'
       = (chk_lower w
          || negb (any [chk_upper w; chk_lower w; chk_numbers w; chk_symbols w]))
    /\ any [chk_upper w'; chk_lower w'; chk_numbers w'; chk_symbols w'] = true
    /\ length (password_display w') = Z.to_nat (length_slider w)
    /\ Forall (fun c =>
                 In c (alphabet (chk_upper w') (chk_lower w')
                                (chk_numbers w') (chk_symbols w')))
              (password_display w')
    /\ strength_bar w'
       = ((fst (calculate_strength (password_display w')) + 1) * 20)%Z
    /\ strength_label w'
       = ("Strength: " ++ snd (calculate_strength (password_display w')))%string.
Proof.
  intros Hrel Hdepth. destruct depth as [|[|depth]]; try lia.
  destruct (any [chk_upper w; chk_lower w; chk_numbers w; chk_symbols w])
    eqn:Hany.
  - rewrite generate_password_checked by exact Hany.
    destruct (generate_reliable Hrel (length_slider w) (chk_upper w)
                (chk_lower w) (chk_numbers w) (chk_symbols w) s)
      as (pwd & s' & Hrun & Hlen & Hall).
    rewrite Hrun. rewrite Hany in Hlen.
    destruct (refresh_result w pwd) as (Hs & Hu & Hl & Hn & Hy & Hd & Hbar & Hlabel).
    eexists. exists s'. split; [ reflexivity | ].
    rewrite Hs, Hu, Hl, Hn, Hy, Hd, Hbar, Hlabel, Hany, orb_false_r.
    repeat split; assumption.
  - rewrite generate_password_unchecked by exact Hany.
    destruct (any_false_flags _ _ _ _ Hany) as (Hu0 & Hl0 & Hn0 & Hy0).
    set (w0 := {| length_slider := length_slider w;
                  chk_upper := chk_upper w; chk_lower := true;
                  chk_numbers := chk_numbers w; chk_symbols := chk_symbols w;
                  password_display := password_display w;
                  strength_bar := strength_bar w;
                  strength_bar_style := strength_bar_style w;
                  strength_label := strength_label w;
                  strength_label_style := strength_label_style w |}).
    assert (Hany0 : any [chk_upper w0; chk_lower w0; chk_numbers w0; chk_symbols w0]
                    = true)
      by (subst w0; cbn [chk_upper chk_lower chk_numbers chk_symbols];
          rewrite Hu0; reflexivity).
    rewrite generate_password_checked by exact Hany0.
    destruct (generate_reliable Hrel (length_slider w0) (chk_upper w0)
                (chk_lower w0) (chk_numbers w0) (chk_symbols w0) s)
      as (pwd1 & s1 & Hrun1 & _ & _).
    rewrite Hrun1.
    set (w1 := _update_strength_meter (password_display_setText pwd1 w0) pwd1).
    destruct (refresh_result w0 pwd1)
      as (Hs1 & Hu1 & Hl1 & Hn1 & Hy1 & _).
    fold w1 in Hs1, Hu1, Hl1, Hn1, Hy1.
    destruct (generate_reliable Hrel (length_slider w) (chk_upper w) true
                (chk_numbers w) (chk_symbols w) s1)
      as (pwd2 & s2 & Hrun2 & Hlen2 & Hall2).
    rewrite Hrun2.
    destruct (refresh_result w1 pwd2)
      as (Hs & Hu & Hl & Hn & Hy & Hd & Hbar & Hlabel).
    eexists. exists s2. split; [ reflexivity | ].
    rewrite Hs, Hu, Hl, Hn, Hy, Hd, Hbar, Hlabel, Hs1, Hu1, Hl1, Hn1, Hy1.
    subst w0. cbn [length_slider chk_upper chk_lower chk_numbers chk_symbols].
    rewrite Hl0. rewrite Hu0 in Hlen2, Hall2 |- *.
    change (any [false; true; chk_numbers w; chk_symbols w]) with true in Hlen2 |- *.
    repeat split; assumption.
Qed.

(** X10. On a source that does not raise, [generate_password] ends (two
    levels of nesting are enough) with a display and a meter that agree: the
    slider is untouched; the lowercase box is checked when no box was, and
    the boxes are otherwise untouched, so that some box is checked; the
    display holds a password of as many characters as the slider says,
    drawn from the alphabet of the checked boxes; the bar and the label show
    the score and the label of [calculate_strength] for the displayed
    password. *)
Theorem generate_password_shows_rated_password
    (S : Type) (src : SystemRandom S) (depth : nat) (w : widgets) (s : S) :
  (forall (n : N) (s0 : S),
      exists (i : N) (s1 : S), randbelow n s0 = Ok (i, s1)) ->
  (2 <= depth)%nat ->
  exists (w' : widgets) (s' : S),
    generate_password depth w s = Ok (Some w', s')
    /\ length_slider w' = length_slider w
    /\ (chk_upper w', chk_numbers w', chk_symbols w')
       = (chk_upper w, chk_numbers w, chk_symbols w)
    /\ chk_lower w'
       = (chk_lower w
          || negb (any [chk_upper w; chk_lower w; chk_numbers w; chk_symbols w]))
    /\ any [chk_upper w'; chk_lower w'; chk_numbers w'; chk_symbols w'] = true
    /\ length (password_display w') = Z.to_nat (length_slider w)
    /\ Forall (fun c =>
                 In c (alphabet (chk_upper w') (chk_lower w')
                                (chk_numbers w') (chk_symbols w')))
              (password_display w')
    /\ strength_bar w'
       = ((fst (calculate_strength (password_display w')) + 1) * 20)%Z
    /\ strength_label w'
       = ("Strength: " ++ snd (calculate_strength (password_display w')))%string.
Proof. apply generate_password_outcome. Qed.

Lemma generate_password_shows_rated_password_witness :
  exists (w' : widgets) (s' : TestSource.counter),
    @generate_password _ TestSource.counter_source 2
      {| length_slider := 8; chk_upper := false; chk_lower := false;
         chk_numbers := false; chk_symbols := false; password_display := [];
         strength_bar := 0; strength_bar_style := EmptyString; strength_label := EmptyString;
         strength_label_style := EmptyString |} 0%N
    = Ok (Some w', s')
    /\ chk_lower w' = true
    /\ length (password_display w') = 8%nat.
Proof.
  destruct (@generate_password_shows_rated_password _ TestSource.counter_source
              2%nat
              {| length_slider := 8; chk_upper := false; chk_lower := false;
                 chk_numbers := false; chk_symbols := false;
                 password_display := [];
                 strength_bar := 0; strength_bar_style := EmptyString;
                 strength_label := EmptyString; strength_label_style := EmptyString |} 0%N)
    as (w' & s' & Hrun & _ & _ & Hlower & _ & Hlen & _).
  - intros n s0. exists (s0 mod n)%N, (s0 + 7)%N. reflexivity.
  - lia.
  - exists w', s'. repeat split; assumption.
Defined.

(** X11. When no box is checked, [generate_password] draws two passwords:
    checking the lowercase box runs the slot once on the window with that
    box checked, and the rest of the call does what a second run of the slot
    on the resulting window does. *)
Theorem generate_password_unchecked_runs_twice
    (S : Type) (src : SystemRandom S) (depth : nat) (w : widgets) (s : S) :
  any [chk_upper w; chk_lower w; chk_numbers w; chk_symbols w] = false ->
  generate_password (Datatypes.S (Datatypes.S depth)) w s
  = (r <- generate_password 1
            {| length_slider := length_slider w;
               chk_upper := chk_upper w; chk_lower := true;
               chk_numbers := chk_numbers w; chk_symbols := chk_symbols w;
               password_display := password_display w;
               strength_bar := strength_bar w;
               strength_bar_style := strength_bar_style w;
               strength_label := strength_label w;
               strength_label_style := strength_label_style w |} ;;
     match r with
     | Some w1 => generate_password 1 w1
     | None => ret None
     end)%py s.
Proof.
  intro Hany. rewrite generate_password_unchecked by exact Hany.
  destruct (any_false_flags _ _ _ _ Hany) as (Hu0 & Hl0 & Hn0 & Hy0).
  set (w0 := {| length_slider := length_slider w;
                chk_upper := chk_upper w; chk_lower := true;
                chk_numbers := chk_numbers w; chk_symbols := chk_symbols w;
                password_display := password_display w;
                strength_bar := strength_bar w;
                strength_bar_style := strength_bar_style w;
                strength_label := strength_label w;
                strength_label_style := strength_label_style w |}).
  assert (Hany0 : any [chk_upper w0; chk_lower w0; chk_numbers w0; chk_symbols w0]
                  = true)
    by (subst w0; cbn [chk_upper chk_lower chk_numbers chk_symbols];
        rewrite Hu0; reflexivity).
  unfold bind. rewrite !(generate_password_checked _ _ _ Hany0).
  destruct (generate (length_slider w0) (chk_upper w0) (chk_lower w0)
              (chk_numbers w0) (chk_symbols w0) s) as [[pwd1 s1]|e];
    [ | reflexivity ].
  set (w1 := _update_strength_meter (password_display_setText pwd1 w0) pwd1).
  destruct (refresh_result w0 pwd1) as (Hs1 & Hu1 & Hl1 & Hn1 & Hy1 & _).
  fold w1 in Hs1, Hu1, Hl1, Hn1, Hy1.
  assert (Hany1 : any [chk_upper w1; chk_lower w1; chk_numbers w1; chk_symbols w1]
                  = true)
    by (rewrite Hu1, Hl1, Hn1, Hy1; exact Hany0).
  rewrite (generate_password_checked _ _ _ Hany1).
  rewrite Hs1, Hu1, Hl1, Hn1, Hy1.
  subst w0. cbn [length_slider chk_upper chk_lower chk_numbers chk_symbols].
  reflexivity.
Qed.

Lemma generate_password_unchecked_runs_twice_witness :
  @generate_password _ TestSource.counter_source 2
    {| length_slider := 6; chk_upper := false; chk_lower := false;
       chk_numbers := false; chk_symbols := false; password_display := [];
       strength_bar := 0; strength_bar_style := EmptyString; strength_label := EmptyString;
       strength_label_style := EmptyString |} 0%N
  = (r <- @generate_password _ TestSource.counter_source 1
            {| length_slider := 6; chk_upper := false; chk_lower := true;
               chk_numbers := false; chk_symbols := false;
               password_display := [];
               strength_bar := 0; strength_bar_style := EmptyString;
               strength_label := EmptyString; strength_label_style := EmptyString |} ;;
     match r with
     | Some w1 => @generate_password _ TestSource.counter_source 1 w1
     | None => ret None
     end)%py 0%N.
Proof.
  apply (@generate_password_unchecked_runs_twice _ TestSource.counter_source
           0%nat
           {| length_slider := 6; chk_upper := false; chk_lower := false;
              chk_numbers := false; chk_symbols := false;
              password_display := [];
              strength_bar := 0; strength_bar_style := EmptyString;
              strength_label := EmptyString; strength_label_style := EmptyString |} 0%N).
  reflexivity.
Defined.

(** ** The meter and the slider *)

Lemma nonempty_not_too_short (password : str) :
  password <> [] ->
  snd (calculate_strength password) <> "Too Short"%string.
Proof.
  intro Hne. rewrite calculate_strength_exec_correct.
  unfold calculate_strength_exec.
  destruct password as [|c rest]; [ congruence | ]. cbv zeta.
  repeat match goal with
         | |- context [if ?b then _ else _] => destruct b
         end; simpl; discriminate.
Qed.

Lemma long_password_very_strong (password : str) :
  pool_size password <> 0%Z -> (39 <= length password)%nat ->
  calculate_strength password = (4%Z, "Very Strong"%string).
Proof.
  intros Hnz Hlen. rewrite calculate_strength_exec_correct.
  unfold calculate_strength_exec.
  destruct password as [|c rest]; [ simpl in Hlen; lia | ].
  set (p := c :: rest) in *. cbv zeta.
  pose proof (pool_size_ge_10 p Hnz) as Hpool.
  apply Z.eqb_neq in Hnz. rewrite Hnz.
  assert (Hlong : forall bits : Z,
             entropy_below 39 10 bits = false ->
             entropy_below (length p) (pool_size p) bits = false)
    by (intros bits; apply entropy_below_long; assumption).
  rewrite (Hlong 28%Z), (Hlong 36%Z), (Hlong 60%Z), (Hlong 128%Z);
    vm_compute; reflexivity.
Qed.

Lemma short_password_weak (password : str) :
  (length password <= 4)%nat -> fst (calculate_strength password) = 0%Z.
Proof.
  intro Hlen. rewrite calculate_strength_exec_correct.
  unfold calculate_strength_exec.
  destruct password as [|c rest]; [ reflexivity | ].
  set (p := c :: rest) in *. cbv zeta.
  destruct (pool_size p =? 0)%Z eqn:Hzero; [ reflexivity | ].
  apply Z.eqb_neq in Hzero.
  rewrite (@entropy_below_short (length p) 4 (pool_size p) 28);
    [ reflexivity | | exact Hlen | vm_compute; reflexivity ].
  pose proof (pool_size_nonneg p). pose proof (pool_size_le_94 p). lia.
Qed.

Lemma string_append_cancel (prefix a b : string) :
  (prefix ++ a)%string = (prefix ++ b)%string -> a = b.
Proof.
  induction prefix as [|ch prefix IH]; simpl; intro Heq.
  - exact Heq.
  - injection Heq as Heq. apply IH, Heq.
Qed.

(** X12. What the meter can show after [generate_password], on a source
    that does not raise: with the slider at 1 or more the label is never
    "Strength: Too Short"; with the slider at 39 or more the label is
    "Strength: Very Strong" and the bar is at 100, whatever the boxes; with
    the slider at 4 or less the bar is at 20. *)
Theorem generate_password_meter_by_slider
    (S : Type) (src : SystemRandom S) (depth : nat) (w : widgets) (s : S) :
  (forall (n : N) (s0 : S),
      exists (i : N) (s1 : S), randbelow n s0 = Ok (i, s1)) ->
  (2 <= depth)%nat ->
  exists (w' : widgets) (s' : S),
    generate_password depth w s = Ok (Some w', s')
    /\ ((1 <= length_slider w)%Z ->
        strength_label w' <> "Strength: Too Short"%string)
    /\ ((39 <= length_slider w)%Z ->
        strength_label w' = "Strength: Very Strong"%string
        /\ strength_bar w' = 100%Z)
    /\ ((length_slider w <= 4)%Z -> strength_bar w' = 20%Z).
Proof.
  intros Hrel Hdepth.
  destruct (@generate_password_outcome _ src depth w s Hrel Hdepth)
    as (w' & s' & Hrun & _ & _ & _ & _ & Hlen & Hall & Hbar & Hlabel).
  exists w', s'. split; [ exact Hrun | ].
  rewrite Hbar, Hlabel.
  assert (Hne : (1 <= length_slider w)%Z -> password_display w' <> [])
    by (intros Hpos Hnil; rewrite Hnil in Hlen; simpl in Hlen; lia).
  split; [ | split ].
  - intros Hpos Heq.
    change "Strength: Too Short"%string
      with ("Strength: " ++ "Too Short")%string in Heq.
    apply string_append_cancel in Heq.
    exact (nonempty_not_too_short (Hne Hpos) Heq).
  - intro Hlong.
    rewrite long_password_very_strong; [ split; reflexivity | | lia ].
    eapply pool_size_of_alphabet_nonempty; [ apply Hne; lia | exact Hall ].
  - intro Hshort. rewrite short_password_weak; [ reflexivity | lia ].
Qed.

Lemma generate_password_meter_by_slider_witness :
  exists (w' : widgets) (s' : TestSource.counter),
    @generate_password _ TestSource.counter_source 2
      {| length_slider := 40; chk_upper := false; chk_lower := false;
         chk_numbers := true; chk_symbols := false; password_display := [];
         strength_bar := 0; strength_bar_style := EmptyString;
         strength_label := EmptyString;
         strength_label_style := EmptyString |} 0%N
    = Ok (Some w', s')
    /\ strength_label w' = "Strength: Very Strong"%string
    /\ strength_bar w' = 100%Z.
Proof.
  destruct (@generate_password_meter_by_slider _ TestSource.counter_source
              2%nat
              {| length_slider := 40; chk_upper := false; chk_lower := false;
                 chk_numbers := true; chk_symbols := false;
                 password_display := [];
                 strength_bar := 0; strength_bar_style := EmptyString;
                 strength_label := EmptyString;
                 strength_label_style := EmptyString |} 0%N)
    as (w' & s' & Hrun & _ & Hlong & _).
  - intros n s0. exists (s0 mod n)%N, (s0 + 7)%N. reflexivity.
  - lia.
  - exists w', s'. split; [ exact Hrun | ]. apply Hlong. simpl. lia.
Defined.

(** ** Unclassified characters still count in the length *)





(** ** Failure of the source, with the state it leaves *)

Section TracedDraws.

Context {S : Type} `{Traced.Source S}.

Lemma traced_choice_draw (a : str) (s : S) :
  a <> [] ->
  match Traced.randbelow (N.of_nat (length a)) s with
  | (Ok _, s') => exists c, Traced.choice a s = (Ok c, s') /\ In c a
  | (Raise e, s') => Traced.choice a s = (Raise e, s')
  end.
Proof.
  intro Hne. destruct a as [|x a']; [ congruence | ].
  unfold Traced.choice, Traced.bind.
  destruct (Traced.randbelow (N.of_nat (length (x :: a'))) s)
    as [[r|e] s'] eqn:Hdraw; [ | reflexivity ].
  apply Traced.randbelow_below in Hdraw; [ | simpl; lia ].
  destruct (nth_error (x :: a') (N.to_nat r)) as [c|] eqn:Hnth.
  - exists c. split; [ reflexivity | ]. eapply nth_error_In; exact Hnth.
  - apply nth_error_None in Hnth. lia.
Qed.

Lemma traced_join_choices_spec (a : str) (k : nat) :
  a <> [] ->
  forall s : S,
    match Traced.first_failure (N.of_nat (length a)) k s with
    | Some (e, s1) => Traced.join_choices a k s = (Raise e, s1)
    | None =>
        exists pw : str,
          Traced.join_choices a k s
          = (Ok pw, Traced.after_draws (N.of_nat (length a)) k s)
          /\ length pw = k /\ Forall (fun c => In c a) pw
    end.
Proof.
  intro Hne. induction k as [|k IH]; intro s; simpl.
  - exists []. repeat split. constructor.
  - pose proof (traced_choice_draw s Hne) as Hchoice. unfold Traced.bind.
    destruct (Traced.randbelow (N.of_nat (length a)) s) as [[r|e] s1].
    + destruct Hchoice as (c & -> & Hin).
      specialize (IH s1).
      destruct (Traced.first_failure (N.of_nat (length a)) k s1) as [[e s2]|].
      * rewrite IH. reflexivity.
      * destruct IH as (pw & -> & Hlen & Hall).
        exists (c :: pw). simpl. repeat split; [ congruence | ].
        constructor; assumption.
    + rewrite Hchoice. reflexivity.
Qed.

Lemma choice_forgets (a : str) (s : S) :
  @choice S (forgetful_source _) a s = forget (Traced.choice a s).
Proof.
  destruct a as [|x a']; [ reflexivity | ].
  unfold choice, Traced.choice, bind, Traced.bind.
  cbn [randbelow forgetful_source].
  destruct (Traced.randbelow (N.of_nat (length (x :: a'))) s) as [[r|e] s1];
    [ | reflexivity ].
  simpl forget. unfold char in *.
  destruct (nth_error (x :: a') (N.to_nat r)); reflexivity.
Qed.

Lemma join_choices_forgets (a : str) (k : nat) (s : S) :
  @join_choices S (forgetful_source _) a k s = forget (Traced.join_choices a k s).
Proof.
  revert s. induction k as [|k IH]; intro s; [ reflexivity | ].
  cbn [join_choices Traced.join_choices].
  unfold bind, Traced.bind, ret, Traced.ret. cbv beta.
  rewrite choice_forgets.
  destruct (Traced.choice a s) as [[c|e] s1]; [ | reflexivity ].
  cbn [forget]. rewrite IH.
  destruct (Traced.join_choices a k s1) as [[rest|e] s2]; reflexivity.
Qed.

End TracedDraws.

(** The two embeddings of [generate] agree: run on a source that forgets the
    state a failed draw leaves, [generate] returns what the state-keeping
    run returns, with that state forgotten. *)
Lemma generate_forgets
    (S : Type) (src : Traced.Source S) (L : Z)
    (use_upper use_lower use_numbers use_symbols : bool) (s : S) :
  @generate S (forgetful_source src) L use_upper use_lower use_numbers use_symbols s
  = forget (Traced.generate L use_upper use_lower use_numbers use_symbols s).
Proof.
  unfold generate, Traced.generate.
  destruct (negb (any [use_upper; use_lower; use_numbers; use_symbols]));
    [ reflexivity | apply join_choices_forgets ].
Qed.

(** C9. [generate] neither retries nor recovers.  With the source observed
    also when it raises: [generate] ends with the exception [e] and the
    source in the state [s1] exactly when a class is enabled and, among its
    [length] draws made in order, the first one to raise raises [e] and
    leaves the source in [s1]; so the failure of the source reaches the
    caller as it is, and after it no further draw is made, by [generate] or
    by a handler.  [generate] returns a string only when none of its draws
    raised, and then the source is in the state those draws leave. *)
Theorem generate_stops_at_first_failure
    (S : Type) (src : Traced.Source S) (L : Z)
    (use_upper use_lower use_numbers use_symbols : bool) (s : S) :
  (forall (e : exn) (s1 : S),
      Traced.generate L use_upper use_lower use_numbers use_symbols s
      = (Raise e, s1)
      <-> any [use_upper; use_lower; use_numbers; use_symbols] = true
          /\ Traced.first_failure
               (N.of_nat (length (alphabet use_upper use_lower use_numbers use_symbols)))
               (Z.to_nat L) s = Some (e, s1))
  /\ (forall (pw : str) (s1 : S),
         Traced.generate L use_upper use_lower use_numbers use_symbols s
         = (Ok pw, s1) ->
         (any [use_upper; use_lower; use_numbers; use_symbols] = false
          /\ pw = [] /\ s1 = s)
         \/ (any [use_upper; use_lower; use_numbers; use_symbols] = true
             /\ Traced.first_failure
                  (N.of_nat (length (alphabet use_upper use_lower use_numbers use_symbols)))
                  (Z.to_nat L) s = None
             /\ s1 = Traced.after_draws
                       (N.of_nat (length (alphabet use_upper use_lower use_numbers use_symbols)))
                       (Z.to_nat L) s)).
Proof.
  unfold Traced.generate.
  destruct (any [use_upper; use_lower; use_numbers; use_symbols]) eqn:Hany;
    cbv beta iota delta [negb].
  - pose proof (traced_join_choices_spec (Z.to_nat L)
                  (alphabet_nonempty _ _ _ _ Hany) s) as Hjoin.
    destruct (Traced.first_failure _ _ s) as [[e' s']|].
    + rewrite Hjoin. split.
      * intros e s1. split.
        -- intro Heq. injection Heq as -> ->. split; reflexivity.
        -- intros [_ Heq]. injection Heq as -> ->. reflexivity.
      * intros pw s1 Heq. discriminate Heq.
    + destruct Hjoin as (pw0 & -> & _). split.
      * intros e s1. split; [ discriminate | intros [_ Heq]; discriminate Heq ].
      * intros pw s1 Heq. injection Heq as _ <-. right. repeat split.
  - split.
    + intros e s1. split; [ discriminate | intros [Habs _]; discriminate Habs ].
    + intros pw s1 Heq. injection Heq as <- <-. left. repeat split.
Qed.

Lemma generate_stops_at_first_failure_witness :
  @Traced.generate _ Traced.tape_source 3 true false false false
    [Ok 30%N; Raise NotImplementedError; Ok 1%N; Ok 0%N]
  = (Raise NotImplementedError, [Ok 1%N; Ok 0%N]).
Proof.
  destruct (@generate_stops_at_first_failure _ Traced.tape_source 3%Z
              true false false false
              [Ok 30%N; Raise NotImplementedError; Ok 1%N; Ok 0%N])
    as (Hraise & _).
  apply Hraise. split; reflexivity.
Defined.
